(** * terraform-provider-smtp: the send_mail resource

    A shallow embedding of the resource handlers of the provider
    (Create, Read, Update, Delete, uniqueAttrValue, asStringList) and of the
    library functions they call, with the properties of the composed
    message, the recipient list, the protocol steps and the identifier. *)

From Stdlib Require Import ZArith Ascii Lia.
From stdpp Require Import base option list gmap strings.

Local Open Scope Z_scope.

(** ** Go strings and byte slices

    A Go string is a sequence of bytes, and so is [[]byte(s)]: both are
    [string] here, a list of 8-bit [ascii]. *)

Definition byte_value (c : ascii) : Z := Z.of_N (N_of_ascii c).

Definition byte_of (n : Z) : ascii := ascii_of_N (Z.to_N (n mod 256)).

Definition bytes_of_string (s : string) : list Z :=
  byte_value <$> String.list_ascii_of_string s.

Definition CR : ascii := "013"%char.
Definition LF : ascii := "010"%char.
Definition DQUOTE : ascii := "034"%char.
Definition BACKSLASH : ascii := "092"%char.

(** The Go escapes "\r\n" and "\n" of the source's literals. *)
Definition CRLF : string := String CR (String LF "").
Definition NL : string := String LF "".

(** ** strings.Join *)

Module strings.

(** [strings.Join(elems, sep)]: nothing for no element, the element itself
    for one, and otherwise the elements with [sep] between them. *)
Fixpoint Join (elems : list string) (sep : string) : string :=
  match elems with
  | [] => ""
  | [s] => s
  | s :: rest => s +:+ sep +:+ Join rest sep
  end.

End strings.

(** ** strconv.Quote, which fmt's %q verb prints a string with *)

Module strconv.

Definition lowerhex (n : Z) : ascii :=
  if n <? 10 then byte_of (48 + n) else byte_of (87 + n).

(** [appendEscapedRune] on a rune below [utf8.RuneSelf]: the quote and the
    backslash are backslashed, printable ASCII stands for itself, the usual
    control characters have their letter, the others are [\x] and two hex
    digits. *)
Definition appendEscapedRune (c : ascii) : string :=
  let r := byte_value c in
  if (r =? 34) || (r =? 92) then String BACKSLASH (String c "")
  else if (32 <=? r) && (r <=? 126) then String c ""
  else if r =? 7 then String BACKSLASH "a"
  else if r =? 8 then String BACKSLASH "b"
  else if r =? 12 then String BACKSLASH "f"
  else if r =? 10 then String BACKSLASH "n"
  else if r =? 13 then String BACKSLASH "r"
  else if r =? 9 then String BACKSLASH "t"
  else if r =? 11 then String BACKSLASH "v"
  else String BACKSLASH
         (String "x" (String (lowerhex (Z.shiftr r 4))
                        (String (lowerhex (Z.land r 15)) ""))).

Section Quote.

(** From the first byte at or above [utf8.RuneSelf] (0x80) on, Quote decodes
    UTF-8 and asks the Unicode tables of the Go release whether a rune
    prints. [wide] stands for that remainder of its loop: it takes the unread
    rest of the string to the rest of the output, closing quote included. *)
Variable wide : string → string.

Fixpoint appendQuoted (s : string) : string :=
  match s with
  | EmptyString => String DQUOTE ""
  | String c s' =>
      if byte_value c <? 128 then appendEscapedRune c +:+ appendQuoted s'
      else wide s
  end.

Definition Quote (s : string) : string := String DQUOTE (appendQuoted s).

End Quote.

End strconv.

(** ** crypto/md5: the MD5 digest of RFC 1321 *)

Module md5.

(** The digest has [Size] bytes. *)
Definition Size : nat := 16.

Definition wrap32 (x : Z) : Z := x mod 2 ^ 32.

Definition rotl32 (x c : Z) : Z :=
  wrap32 (Z.lor (Z.shiftl x c) (Z.shiftr x (32 - c))).

Definition not32 (x : Z) : Z := Z.lxor x 0xffffffff.

(** floor(2^32 * abs(sin(i + 1))), i = 0 .. 63. *)
Definition K : list Z :=
  [ 0xd76aa478; 0xe8c7b756; 0x242070db; 0xc1bdceee;
    0xf57c0faf; 0x4787c62a; 0xa8304613; 0xfd469501;
    0x698098d8; 0x8b44f7af; 0xffff5bb1; 0x895cd7be;
    0x6b901122; 0xfd987193; 0xa679438e; 0x49b40821;
    0xf61e2562; 0xc040b340; 0x265e5a51; 0xe9b6c7aa;
    0xd62f105d; 0x02441453; 0xd8a1e681; 0xe7d3fbc8;
    0x21e1cde6; 0xc33707d6; 0xf4d50d87; 0x455a14ed;
    0xa9e3e905; 0xfcefa3f8; 0x676f02d9; 0x8d2a4c8a;
    0xfffa3942; 0x8771f681; 0x6d9d6122; 0xfde5380c;
    0xa4beea44; 0x4bdecfa9; 0xf6bb4b60; 0xbebfbc70;
    0x289b7ec6; 0xeaa127fa; 0xd4ef3085; 0x04881d05;
    0xd9d4d039; 0xe6db99e5; 0x1fa27cf8; 0xc4ac5665;
    0xf4292244; 0x432aff97; 0xab9423a7; 0xfc93a039;
    0x655b59c3; 0x8f0ccc92; 0xffeff47d; 0x85845dd1;
    0x6fa87e4f; 0xfe2ce6e0; 0xa3014314; 0x4e0811a1;
    0xf7537e82; 0xbd3af235; 0x2ad7d2bb; 0xeb86d391 ].

(** The rotation of each of the 64 steps. *)
Definition shifts : list Z :=
  [ 7; 12; 17; 22; 7; 12; 17; 22; 7; 12; 17; 22; 7; 12; 17; 22;
    5; 9; 14; 20; 5; 9; 14; 20; 5; 9; 14; 20; 5; 9; 14; 20;
    4; 11; 16; 23; 4; 11; 16; 23; 4; 11; 16; 23; 4; 11; 16; 23;
    6; 10; 15; 21; 6; 10; 15; 21; 6; 10; 15; 21; 6; 10; 15; 21 ].

(** The four chaining words. *)
Record state := State { s0 : Z; s1 : Z; s2 : Z; s3 : Z }.

Definition init : state :=
  State 0x67452301 0xefcdab89 0x98badcfe 0x10325476.

(** Step [i] of a block whose sixteen words are [M]. *)
Definition step (M : list Z) (st : state) (i : nat) : state :=
  let '(State a b c d) := st in
  let '(f, g) :=
    if (i <? 16)%nat then
      (Z.lor (Z.land b c) (Z.land (not32 b) d), i)
    else if (i <? 32)%nat then
      (Z.lor (Z.land d b) (Z.land (not32 d) c), ((5 * i + 1) mod 16)%nat)
    else if (i <? 48)%nat then
      (Z.lxor (Z.lxor b c) d, ((3 * i + 5) mod 16)%nat)
    else
      (Z.lxor c (Z.lor b (not32 d)), ((7 * i) mod 16)%nat) in
  let F := wrap32 (f + a + nth i K 0 + nth g M 0) in
  State d (wrap32 (b + rotl32 F (nth i shifts 0))) b c.

(** A little-endian 32-bit word of four bytes, and back. *)
Definition word_of_bytes (bs : list Z) : Z :=
  foldr (λ b acc, b + 256 * acc) 0 bs.

Definition bytes_of_word (n : nat) (w : Z) : list Z :=
  (λ k : nat, Z.shiftr w (8 * Z.of_nat k) mod 256) <$> seq 0 n.

(** [chunks n k l]: the first [k] pieces of [n] elements of [l]. *)
Fixpoint chunks {A} (n k : nat) (l : list A) : list (list A) :=
  match k with
  | O => []
  | S k' => take n l :: chunks n k' (drop n l)
  end.

Definition block (st : state) (p : list Z) : state :=
  let M := word_of_bytes <$> chunks 4 16 p in
  let '(State a b c d) := foldl (step M) st (seq 0 64) in
  State (wrap32 (s0 st + a)) (wrap32 (s1 st + b))
        (wrap32 (s2 st + c)) (wrap32 (s3 st + d)).

(** The message, the byte 0x80, zeros up to 56 modulo 64, and the length in
    bits as a little-endian 64-bit word. *)
Definition pad (data : list Z) : list Z :=
  let len := Z.of_nat (length data) in
  data ++ [0x80] ++ replicate (Z.to_nat ((55 - len) mod 64)) 0
       ++ bytes_of_word 8 ((8 * len) mod 2 ^ 64).

(** [md5.Sum(data)]. *)
Definition Sum (data : string) : list Z :=
  let p := pad (bytes_of_string data) in
  let '(State a b c d) := foldl block init (chunks 64 (length p / 64) p) in
  bytes_of_word 4 a ++ bytes_of_word 4 b ++ bytes_of_word 4 c ++ bytes_of_word 4 d.

End md5.

(** ** fmt.Sprintf *)

Module fmt.

(** [fmt.Sprintf("%x", b)] for a byte array [b]: two lowercase hex digits a
    byte, nothing between them. *)
Definition Sprintf_x (b : list Z) : string :=
  foldr (λ x acc, String (strconv.lowerhex (Z.shiftr x 4))
                    (String (strconv.lowerhex (Z.land x 15)) acc)) "" b.

(** [fmt.Sprintf("%q", s)] for a string [s] is [strconv.Quote(s)]. *)
Definition Sprintf_q (wide : string → string) (s : string) : string :=
  strconv.Quote wide s.

End fmt.

(** ** terraform-plugin-framework: attribute values and diagnostics *)

Module attr.

(** What [String] returns for an unknown and for a null value. *)
Definition UnknownValueString : string := "<unknown>".
Definition NullValueString : string := "<null>".

End attr.

Module basetypes.

(** [types.String]: null, unknown, or a known Go string. *)
Inductive StringValue :=
| NewStringNull
| NewStringUnknown
| NewStringValue (value : string).

(** [ValueString]: the known value, the empty string otherwise. *)
Definition ValueString (s : StringValue) : string :=
  match s with
  | NewStringValue value => value
  | _ => ""
  end.

(** [StringValue]'s [String] method, the human-readable form of the value:
    a known string is printed with fmt's %q. *)
Definition StringValue_String (wide : string → string) (s : StringValue) : string :=
  match s with
  | NewStringUnknown => attr.UnknownValueString
  | NewStringNull => attr.NullValueString
  | NewStringValue value => fmt.Sprintf_q wide value
  end.

(** [types.Bool]. *)
Inductive BoolValue :=
| NewBoolNull
| NewBoolUnknown
| NewBoolValue (value : bool).

(** [ValueBool]: the known value, false otherwise. *)
Definition ValueBool (b : BoolValue) : bool :=
  match b with
  | NewBoolValue value => value
  | _ => false
  end.

(** [types.List] over the element values [V]. *)
Inductive ListValue (V : Type) :=
| NewListNull
| NewListUnknown
| NewListValueMust (elements : list V).

Arguments NewListNull {V}.
Arguments NewListUnknown {V}.
Arguments NewListValueMust {V} elements.

(** [Elements]: the elements of a known list, none otherwise. *)
Definition Elements {V} (l : ListValue V) : list V :=
  match l with
  | NewListValueMust elements => elements
  | _ => []
  end.

#[global] Instance StringValue_eq_dec : EqDecision StringValue.
Proof. solve_decision. Defined.

#[global] Instance StringValue_countable : Countable StringValue.
Proof.
  refine (inj_countable'
    (λ s, match s with
          | NewStringNull => inl false
          | NewStringUnknown => inl true
          | NewStringValue v => inr v
          end)
    (λ x, match x with
          | inl false => NewStringNull
          | inl true => NewStringUnknown
          | inr v => NewStringValue v
          end) _).
  by intros [].
Defined.

End basetypes.

Module diag.

Inductive Severity := SeverityError | SeverityWarning.

Record Diagnostic := NewDiagnostic {
  severity : Severity;
  Summary : string;
  Detail : string
}.

#[global] Instance Severity_eq_dec : EqDecision Severity.
Proof. solve_decision. Defined.

#[global] Instance Diagnostic_eq_dec : EqDecision Diagnostic.
Proof. solve_decision. Defined.

Definition NewErrorDiagnostic (summary detail : string) : Diagnostic :=
  NewDiagnostic SeverityError summary detail.

Definition Diagnostics := list Diagnostic.

(** [Contains]: some diagnostic of the collection equals [d]. *)
Definition Contains (diags : Diagnostics) (d : Diagnostic) : bool :=
  bool_decide (d ∈ diags).

(** [Append]: the diagnostics not yet in the collection are added at its end. *)
Definition Append (diags : Diagnostics) (new : list Diagnostic) : Diagnostics :=
  foldl (λ acc d, if Contains acc d then acc else acc ++ [d]) diags new.

Definition AddError (diags : Diagnostics) (summary detail : string) : Diagnostics :=
  Append diags [NewErrorDiagnostic summary detail].

(** [HasError]: some diagnostic has the severity of an error. *)
Definition HasError (diags : Diagnostics) : bool :=
  bool_decide (Exists (λ d, severity d = SeverityError) diags).

End diag.

(** ** net/smtp: the calls of a client and what the far end answers *)

Module smtp.

(** [smtp.PlainAuth(identity, username, password, host)]. *)
Record Auth := PlainAuth {
  identity : string;
  username : string;
  password : string;
  host : string
}.

(** [tls.Config], with the two fields the resource sets. *)
Record Config := {
  ServerName : string;
  InsecureSkipVerify : bool
}.

(** The calls the resource makes: [smtp.Dial], the methods of the client it
    returns, and [Write] and [Close] of the writer that [Data] returns. The
    argument of [CallAuth] is an interface value, nil when it is [None]. *)
Inductive Call :=
| Dial (addr : string)
| StartTLS (config : Config)
| CallAuth (a : option Auth)
| Mail (from : string)
| Rcpt (to : string)
| Data
| Write (p : string)
| Close.

(** How a call ends: with a nil error, with an error whose text is [err], or
    in a panic. *)
Inductive Reply :=
| Done
| Failed (err : string)
| Panicked.

Definition Event : Type := Call * Reply.

(** The network and the server: the error text a call ends with, if any, after
    the calls made so far. A test double that records calls is one of these. *)
Definition Server : Type := list Call → Call → option string.

#[global] Instance Auth_eq_dec : EqDecision Auth.
Proof. solve_decision. Defined.

#[global] Instance Config_eq_dec : EqDecision Config.
Proof. solve_decision. Defined.

#[global] Instance Call_eq_dec : EqDecision Call.
Proof. solve_decision. Defined.

#[global] Instance Reply_eq_dec : EqDecision Reply.
Proof. solve_decision. Defined.

End smtp.

(** ** The provider's client and the send_mail resource *)

(** The client the provider configures: [auth] is nil ([None]) when
    authentication is switched off. *)
Record client := {
  auth : option smtp.Auth;
  host : string;
  username : string;
  port : string
}.

(** The resource, after [Configure] has stored the provider's client. *)
Record sendMailResource := {
  client_of : client
}.

(** "MIME-version: 1.0;\nContent-Type: text/html; charset=\"UTF-8\";\n\n" *)
Definition mime_html : string :=
  "MIME-version: 1.0;" +:+ NL +:+ "Content-Type: text/html; charset="
    +:+ String DQUOTE "UTF-8" +:+ String DQUOTE ";" +:+ NL +:+ NL.

(** ** The specification's Message Builder and Identity Function *)

(** [headerBlock], [mimeBlock] and [raw] of a request whose to and cc
    addresses are the strings [to] and [cc]. *)
Definition headerBlock (to cc : list string) (subject : string) : string :=
  "To: " +:+ strings.Join to ", " +:+ CRLF +:+
  "Cc: " +:+ strings.Join cc ", " +:+ CRLF +:+
  "Subject: " +:+ subject +:+ CRLF.

Definition mimeBlock (renderHtml : bool) : string :=
  if renderHtml then mime_html else "".

Definition raw (to cc : list string) (subject body : string) (renderHtml : bool) : string :=
  headerBlock to cc subject +:+ mimeBlock renderHtml +:+ CRLF +:+ body +:+ CRLF.

(** The identifier of raw bytes: the lowercase hex of their MD5 digest. *)
Definition identifier (raw : string) : string :=
  fmt.Sprintf_x (md5.Sum raw).

(** How a handler ends: at its end, by an early [return], or in a panic. *)
Inductive Flow (A : Type) :=
| Next (a : A)
| Return
| Panic.

Arguments Next {A} a.
Arguments Return {A}.
Arguments Panic {A}.

Section resource.

(** [attr.Value] is an interface: the resource compares its values as map
    keys and calls their [String] method. *)
Context {Value : Type} `{Countable Value}.
Variable Value_String : Value → string.

Record sendMailModel := {
  ID : basetypes.StringValue;
  From : basetypes.StringValue;
  To : basetypes.ListValue Value;
  Cc : basetypes.ListValue Value;
  Bcc : basetypes.ListValue Value;
  Subject : basetypes.StringValue;
  Body : basetypes.StringValue;
  RenderHtml : basetypes.BoolValue
}.

(** [plan.ID = id]. *)
Definition set_ID (plan : sendMailModel) (id : basetypes.StringValue) : sendMailModel :=
  {| ID := id; From := From plan; To := To plan; Cc := Cc plan; Bcc := Bcc plan;
     Subject := Subject plan; Body := Body plan; RenderHtml := RenderHtml plan |}.

(** The plan with another render_html, and with another bcc. *)
Definition set_RenderHtml (plan : sendMailModel) (flag : basetypes.BoolValue) : sendMailModel :=
  {| ID := ID plan; From := From plan; To := To plan; Cc := Cc plan; Bcc := Bcc plan;
     Subject := Subject plan; Body := Body plan; RenderHtml := flag |}.

Definition set_Bcc (plan : sendMailModel) (bcc : basetypes.ListValue Value) : sendMailModel :=
  {| ID := ID plan; From := From plan; To := To plan; Cc := Cc plan; Bcc := bcc;
     Subject := Subject plan; Body := Body plan; RenderHtml := RenderHtml plan |}.

(** [uniqueAttrValue]: the values of [arr] in order, each kept the first time
    the map [occurred] does not hold it. *)
Definition uniqueAttrValue (arr : list Value) : list Value :=
  (foldl (λ '(occurred, result) v,
            if negb (default false ((occurred : gmap Value bool) !! v))
            then (<[v := true]> occurred, result ++ [v])
            else (occurred, result))
         (∅, []) arr).2.

(** [asStringList]: the [String] of every value. *)
Definition asStringList (arr : list Value) : list string :=
  foldl (λ result i, result ++ [Value_String i]) [] arr.

(** *** The handlers' effects

    A handler changes the response it is given (its diagnostics and its
    state) and calls the SMTP client; it ends by reaching its end, by an
    early return, or in a panic. *)

Record World := {
  calls : list smtp.Event;
  Diagnostics : diag.Diagnostics;
  State : option sendMailModel
}.

Definition Handler (A : Type) : Type := smtp.Server → World → World * Flow A.

#[global] Instance Handler_ret : MRet Handler := λ A a _ w, (w, Next a).

#[global] Instance Handler_bind : MBind Handler := λ A B f m srv w,
  match m srv w with
  | (w', Next a) => f a srv w'
  | (w', Return) => (w', Return)
  | (w', Panic) => (w', Panic)
  end.

(** [return] *)
Definition return_ : Handler unit := λ _ w, (w, Return).

(** [resp.Diagnostics.Append(diags...)] *)
Definition Diagnostics_Append (diags : diag.Diagnostics) : Handler unit := λ _ w,
  ({| calls := calls w; Diagnostics := diag.Append (Diagnostics w) diags;
      State := State w |}, Next ()).

(** [resp.Diagnostics.AddError(summary, detail)] *)
Definition Diagnostics_AddError (summary detail : string) : Handler unit := λ _ w,
  ({| calls := calls w; Diagnostics := diag.AddError (Diagnostics w) summary detail;
      State := State w |}, Next ()).

(** [resp.Diagnostics.HasError()] *)
Definition Diagnostics_HasError : Handler bool := λ _ w,
  (w, Next (diag.HasError (Diagnostics w))).

(** [resp.State.Set(ctx, plan)]: the model has the fields of the schema, the
    state is set and no diagnostic comes back. *)
Definition State_Set (plan : sendMailModel) : Handler diag.Diagnostics := λ _ w,
  ({| calls := calls w; Diagnostics := Diagnostics w; State := Some plan |}, Next []).

(** A call of the SMTP client, recorded with how it ended; its result is the
    Go error, nil being [None]. [Auth] calls the [Start] method of its
    argument: on a nil [smtp.Auth] that is a nil dereference, a panic. *)
Definition conn_call (c : smtp.Call) : Handler (option string) := λ srv w,
  let record rep := {| calls := calls w ++ [(c, rep)];
                       Diagnostics := Diagnostics w; State := State w |} in
  match c with
  | smtp.CallAuth None => (record smtp.Panicked, Panic)
  | _ =>
      match srv ((calls w).*1) c with
      | None => (record smtp.Done, Next None)
      | Some err => (record (smtp.Failed err), Next (Some err))
      end
  end.

(** [if err != nil { resp.Diagnostics.AddError(summary, err.Error()); return }] *)
Definition return_on (err : option string) (summary : string) : Handler unit :=
  match err with
  | Some e => Diagnostics_AddError summary e ;; return_
  | None => mret ()
  end.

(** [for _, a := range l { body }] *)
Fixpoint for_range {A} (l : list A) (body : A → Handler unit) : Handler unit :=
  match l with
  | [] => mret ()
  | a :: l' => body a ;; for_range l' body
  end.

(** [req.Plan]: what [Get] decodes it to, and the diagnostics of decoding. *)
Record Plan := {
  Get : diag.Diagnostics * sendMailModel
}.

Record CreateRequest := { CreateRequest_Plan : Plan }.
Record UpdateRequest := { UpdateRequest_Plan : Plan }.
Record ReadRequest := { }.
Record DeleteRequest := { }.

(** [Create], lines 119 to 214. *)
Definition Create (r : sendMailResource) (req : CreateRequest) : Handler unit :=
  (* Retrieve values from plan *)
  let '(diags, plan) := Get (CreateRequest_Plan req) in
  Diagnostics_Append diags ;;
  has_error ← Diagnostics_HasError;
  (if has_error : bool then return_ else mret ()) ;;
  let host_port := host (client_of r) +:+ ":" +:+ port (client_of r) in
  (* Connect to the SMTP server using a plain TCP connection. *)
  err ← conn_call (smtp.Dial host_port);
  return_on err "Error connecting to SMTP server:" ;;
  (* Upgrade the connection to TLS. *)
  (if auth (client_of r) is Some _ then
     err ← conn_call (smtp.StartTLS {| smtp.ServerName := host_port;
                                        smtp.InsecureSkipVerify := true |});
     return_on err "Error upgrading connection to TLS:"
   else mret ()) ;;
  (* Authenticate with the SMTP server. *)
  (if auth (client_of r) is Some _ then
     err ← conn_call (smtp.CallAuth (auth (client_of r)));
     return_on err "Error authenticating with SMTP server:"
   else mret ()) ;;
  (* Set the sender and recipient addresses, and the email message. *)
  let from := basetypes.ValueString (From plan) in
  let from := if decide (from = "") then username (client_of r) else from in
  let mime := "" in
  let mime := if basetypes.ValueBool (RenderHtml plan) then mime_html else mime in
  let receivers := basetypes.Elements (To plan) ++ basetypes.Elements (Cc plan) in
  let receivers := receivers ++ basetypes.Elements (Bcc plan) in
  let receivers := uniqueAttrValue receivers in
  let msg := "To: " +:+ strings.Join (asStringList (basetypes.Elements (To plan))) ", " +:+ CRLF +:+
             "Cc: " +:+ strings.Join (asStringList (basetypes.Elements (Cc plan))) ", " +:+ CRLF +:+
             "Subject: " +:+ basetypes.ValueString (Subject plan) +:+ CRLF +:+
             mime +:+
             CRLF +:+
             basetypes.ValueString (Body plan) +:+ CRLF in
  (* Send the email. *)
  err ← conn_call (smtp.Mail from);
  return_on err "Error setting sender address:" ;;
  for_range receivers (λ addr,
    err ← conn_call (smtp.Rcpt (Value_String addr));
    return_on err "Error setting recipient address:") ;;
  err ← conn_call smtp.Data;
  return_on err "Error setting email message:" ;;
  err ← conn_call (smtp.Write msg);
  return_on err "Error setting email message:" ;;
  err ← conn_call smtp.Close;
  return_on err "Error sending email:" ;;
  (* tflog.Info(ctx, "Email sent successfully!") *)
  let plan := set_ID plan (basetypes.NewStringValue (fmt.Sprintf_x (md5.Sum msg))) in
  (* Set state to fully populated data *)
  diags ← State_Set plan;
  Diagnostics_Append diags ;;
  has_error ← Diagnostics_HasError;
  (if has_error : bool then return_ else mret ()).

(** [Read], lines 217 and 218: nothing. *)
Definition Read (r : sendMailResource) (req : ReadRequest) : Handler unit :=
  mret ().

(** [Update], lines 221 to 315. *)
Definition Update (r : sendMailResource) (req : UpdateRequest) : Handler unit :=
  (* Retrieve values from plan *)
  let '(diags, plan) := Get (UpdateRequest_Plan req) in
  Diagnostics_Append diags ;;
  has_error ← Diagnostics_HasError;
  (if has_error : bool then return_ else mret ()) ;;
  let host_port := host (client_of r) +:+ ":" +:+ port (client_of r) in
  (* Connect to the SMTP server using a plain TCP connection. *)
  err ← conn_call (smtp.Dial host_port);
  return_on err "Error connecting to SMTP server:" ;;
  (* Upgrade the connection to TLS. *)
  err ← conn_call (smtp.StartTLS {| smtp.ServerName := host_port;
                                     smtp.InsecureSkipVerify := true |});
  return_on err "Error upgrading connection to TLS:" ;;
  (* Authenticate with the SMTP server. *)
  err ← conn_call (smtp.CallAuth (auth (client_of r)));
  return_on err "Error authenticating with SMTP server:" ;;
  (* Set the sender and recipient addresses, and the email message. *)
  let from := basetypes.ValueString (From plan) in
  let from := if decide (from = "") then username (client_of r) else from in
  let mime := "" in
  let mime := if basetypes.ValueBool (RenderHtml plan) then mime_html else mime in
  let receivers := basetypes.Elements (To plan) ++ basetypes.Elements (Cc plan) in
  let receivers := receivers ++ basetypes.Elements (Bcc plan) in
  let receivers := uniqueAttrValue receivers in
  let msg := "To: " +:+ strings.Join (asStringList (basetypes.Elements (To plan))) ", " +:+ CRLF +:+
             "Cc: " +:+ strings.Join (asStringList (basetypes.Elements (Cc plan))) ", " +:+ CRLF +:+
             "Subject: " +:+ basetypes.ValueString (Subject plan) +:+ CRLF +:+
             mime +:+
             CRLF +:+
             basetypes.ValueString (Body plan) +:+ CRLF in
  (* Send the email. *)
  err ← conn_call (smtp.Mail from);
  return_on err "Error setting sender address:" ;;
  for_range receivers (λ addr,
    err ← conn_call (smtp.Rcpt (Value_String addr));
    return_on err "Error setting recipient address:") ;;
  err ← conn_call smtp.Data;
  return_on err "Error setting email message:" ;;
  err ← conn_call (smtp.Write msg);
  return_on err "Error setting email message:" ;;
  err ← conn_call smtp.Close;
  return_on err "Error sending email:" ;;
  (* tflog.Info(ctx, "Email sent successfully!") *)
  let plan := set_ID plan (basetypes.NewStringValue (fmt.Sprintf_x (md5.Sum msg))) in
  (* Set state to fully populated data *)
  diags ← State_Set plan;
  Diagnostics_Append diags ;;
  has_error ← Diagnostics_HasError;
  (if has_error : bool then return_ else mret ()).

(** [Delete], lines 318 and 319: nothing. *)
Definition Delete (r : sendMailResource) (req : DeleteRequest) : Handler unit :=
  mret ().

(** *** The handlers against the specification's components

    The definitions below follow the specification's wording; the theorems
    compare them with what [Create] and [Update] do. *)

(** The two operations that send. *)
Inductive Op := OpCreate | OpUpdate.

Definition handle (op : Op) (r : sendMailResource) (p : Plan) : Handler unit :=
  match op with
  | OpCreate => Create r {| CreateRequest_Plan := p |}
  | OpUpdate => Update r {| UpdateRequest_Plan := p |}
  end.

(** The response a handler is given, its diagnostics [ds] and state [st],
    before any call is made. *)
Definition start (ds : diag.Diagnostics) (st : option sendMailModel) : World :=
  {| calls := []; Diagnostics := ds; State := st |}.

(** Recipient Normalizer: the values of [arr] not in [seen], each once, in the
    order of their first occurrence. *)
Fixpoint unseen (seen arr : list Value) : list Value :=
  match arr with
  | [] => []
  | v :: arr' =>
      if decide (v ∈ seen) then unseen seen arr'
      else v :: unseen (seen ++ [v]) arr'
  end.

(** The recipient set of a plan: to, cc and bcc, duplicates removed. *)
Definition recipients (plan : sendMailModel) : list Value :=
  uniqueAttrValue (basetypes.Elements (To plan) ++ basetypes.Elements (Cc plan)
                     ++ basetypes.Elements (Bcc plan)).

(** The message the handlers compose: the Message Builder on the [String] of
    the to and cc values. *)
Definition message (plan : sendMailModel) : string :=
  raw (Value_String <$> basetypes.Elements (To plan))
      (Value_String <$> basetypes.Elements (Cc plan))
      (basetypes.ValueString (Subject plan))
      (basetypes.ValueString (Body plan))
      (basetypes.ValueBool (RenderHtml plan)).

(** The effective sender: the explicit from if it is not empty, else the
    configured username. *)
Definition sender (r : sendMailResource) (plan : sendMailModel) : string :=
  if decide (basetypes.ValueString (From plan) = "")
  then username (client_of r)
  else basetypes.ValueString (From plan).

(** The state a send that succeeds leaves: the plan with its identifier. *)
Definition sent_state (plan : sendMailModel) : sendMailModel :=
  set_ID plan (basetypes.NewStringValue (identifier (message plan))).

(** One protocol step: the call, and the early return with the diagnostic
    [summary] when it fails. *)
Definition step (cs : smtp.Call * string) : Handler unit :=
  err ← conn_call cs.1; return_on err cs.2.

Fixpoint steps (l : list (smtp.Call * string)) : Handler unit :=
  match l with
  | [] => mret ()
  | cs :: l' => step cs ;; steps l'
  end.

Definition host_port (r : sendMailResource) : string :=
  host (client_of r) +:+ ":" +:+ port (client_of r).

(** Transport Session, step 1: dial. *)
Definition connect (r : sendMailResource) : list (smtp.Call * string) :=
  [ (smtp.Dial (host_port r), "Error connecting to SMTP server:") ].

(** Steps 2 and 3: the upgrade to TLS and the authentication with [a]. *)
Definition secure (r : sendMailResource) (a : option smtp.Auth) : list (smtp.Call * string) :=
  [ (smtp.StartTLS {| smtp.ServerName := host_port r; smtp.InsecureSkipVerify := true |},
     "Error upgrading connection to TLS:");
    (smtp.CallAuth a, "Error authenticating with SMTP server:") ].

(** Step 4: MAIL FROM the effective sender. *)
Definition mail_from (r : sendMailResource) (plan : sendMailModel) : list (smtp.Call * string) :=
  [ (smtp.Mail (sender r plan), "Error setting sender address:") ].

(** Step 5: RCPT TO a recipient. *)
Definition rcpt (v : Value) : smtp.Call * string :=
  (smtp.Rcpt (Value_String v), "Error setting recipient address:").

(** Step 6: the data phase. *)
Definition data (plan : sendMailModel) : list (smtp.Call * string) :=
  [ (smtp.Data, "Error setting email message:");
    (smtp.Write (message plan), "Error setting email message:");
    (smtp.Close, "Error sending email:") ].

(** What comes before the recipients, in the specification (TLS and
    authentication only with credentials) and in each operation. *)
Definition session_prelude (r : sendMailResource) (plan : sendMailModel) : list (smtp.Call * string) :=
  connect r
    ++ (if auth (client_of r) is Some a then secure r (Some a) else [])
    ++ mail_from r plan.

Definition prelude (op : Op) (r : sendMailResource) (plan : sendMailModel) : list (smtp.Call * string) :=
  match op with
  | OpCreate => session_prelude r plan
  | OpUpdate => connect r ++ secure r (auth (client_of r)) ++ mail_from r plan
  end.

(** The steps an operation goes through. *)
Definition script (op : Op) (r : sendMailResource) (plan : sendMailModel) : list (smtp.Call * string) :=
  prelude op r plan ++ (rcpt <$> recipients plan) ++ data plan.

(** A call that ended with a nil error. *)
Definition done (cs : smtp.Call * string) : smtp.Event := (cs.1, smtp.Done).

(** The three ways going through the steps [l] from the world [w] ends in
    [w'] with [f]: every call is done, the state is set and the handler
    reaches its end; or step [n] fails, its error is added and the handler
    returns; or step [n] is [Auth] on nil, and panics. *)
Inductive sent (l : list (smtp.Call * string)) (plan : sendMailModel)
    (w w' : World) (f : Flow unit) : Prop :=
| sent_done :
    calls w' = calls w ++ (done <$> l) →
    Diagnostics w' = Diagnostics w →
    State w' = Some (sent_state plan) →
    f = Next () →
    sent l plan w w' f
| sent_failed n c s e :
    l !! n = Some (c, s) →
    calls w' = calls w ++ (done <$> take n l) ++ [(c, smtp.Failed e)] →
    Diagnostics w' = Diagnostics w ++ [diag.NewErrorDiagnostic s e] →
    State w' = State w →
    f = Return →
    sent l plan w w' f
| sent_panicked n s :
    l !! n = Some (smtp.CallAuth None, s) →
    calls w' = calls w ++ (done <$> take n l) ++ [(smtp.CallAuth None, smtp.Panicked)] →
    Diagnostics w' = Diagnostics w →
    State w' = State w →
    f = Panic →
    sent l plan w w' f.

(** The end of a send that succeeds: the state is set. *)
Definition finish (plan : sendMailModel) : Handler unit :=
  diags ← State_Set (sent_state plan);
  Diagnostics_Append diags ;;
  has_error ← Diagnostics_HasError;
  (if has_error : bool then return_ else mret ()).

(** [Send(config, request)]: the plan is decoded, the steps are gone through,
    and the state is set with the identifier. *)
Definition send (l : list (smtp.Call * string)) (p : diag.Diagnostics * sendMailModel) : Handler unit :=
  Diagnostics_Append p.1 ;;
  has_error ← Diagnostics_HasError;
  (if has_error : bool then return_ else mret ()) ;;
  steps l ;;
  finish p.2.

End resource.

(** *** What a recorded run shows *)

(** The RCPT calls of a run, each with how it ended. *)
Definition rcpt_events (tr : list smtp.Event) : list (string * smtp.Reply) :=
  omap (λ ev : smtp.Event, if ev.1 is smtp.Rcpt a then Some (a, ev.2) else None) tr.

(** The payloads of its Write calls. *)
Definition written (tr : list smtp.Event) : list string :=
  omap (λ ev : smtp.Event, if ev.1 is smtp.Write m then Some m else None) tr.

Definition is_rcpt (c : smtp.Call) : bool :=
  if c is smtp.Rcpt _ then true else false.

(** The calls of the data phase. *)
Definition is_data (c : smtp.Call) : bool :=
  match c with
  | smtp.Data | smtp.Write _ | smtp.Close => true
  | _ => false
  end.

(** The upgrade to TLS and the authentication. *)
Definition is_secure (c : smtp.Call) : bool :=
  match c with
  | smtp.StartTLS _ | smtp.CallAuth _ => true
  | _ => false
  end.

(** A lowercase hexadecimal digit. *)
Definition is_lower_hex (c : ascii) : bool :=
  bool_decide (c ∈ String.list_ascii_of_string "0123456789abcdef").

(** [needle] occurs in [hay]. *)
Definition occurs (needle hay : string) : Prop :=
  ∃ pre post, hay = pre +:+ needle +:+ post.

(** ** Example requests, with the framework's string values *)

(** The examples hold ASCII text only, on which Quote never comes to the
    Unicode tables. *)
Definition ascii_only : string → string := λ _, "".

(** [s] between double quotes. *)
Definition quoted (s : string) : string := String DQUOTE s +:+ String DQUOTE "".

(** The [String] method of the framework's string values. *)
Definition String_ : basetypes.StringValue → string :=
  basetypes.StringValue_String ascii_only.

Definition known (s : string) : basetypes.StringValue :=
  basetypes.NewStringValue s.

Definition address_list (l : list string) : basetypes.ListValue basetypes.StringValue :=
  basetypes.NewListValueMust (known <$> l).

(** The two provider configurations of the documentation. *)
Definition with_credentials : sendMailResource :=
  {| client_of := {| auth := Some (smtp.PlainAuth "" "test" "test123" "smtp.example.com");
                     host := "smtp.example.com"; username := "test"; port := "587" |} |}.

Definition without_credentials : sendMailResource :=
  {| client_of := {| auth := None; host := "smtp.example.com"; username := "test";
                     port := "25" |} |}.

(** A server that accepts every call, and one that fails the call [c]. *)
Definition accepting : smtp.Server := λ _ _, None.

Definition rejecting (c : smtp.Call) (e : string) : smtp.Server :=
  λ _ c', if decide (c' = c) then Some e else None.

Definition request (to cc bcc : list string) (subject body : string) (renderHtml : bool)
  : @Plan basetypes.StringValue :=
  {| Get := ([], {| ID := basetypes.NewStringUnknown;
                    From := basetypes.NewStringNull;
                    To := address_list to; Cc := address_list cc; Bcc := address_list bcc;
                    Subject := known subject; Body := known body;
                    RenderHtml := basetypes.NewBoolValue renderHtml |}) |}.

(** to a@x, subject Hi, body Hello, as plain text. *)
Definition hello : @Plan basetypes.StringValue :=
  request ["a@x"] [] [] "Hi" "Hello" false.

(** Three recipients out of to and cc. *)
Definition three : @Plan basetypes.StringValue :=
  request ["a@x"; "b@x"] ["b@x"; "c@x"] [] "Hi" "Hello" false.

(** An address both in to and in bcc. *)
Definition blind : @Plan basetypes.StringValue :=
  request ["a@x"] [] ["a@x"; "d@x"] "Hi" "Hello" true.

(** ** The provider: its configuration and the client it builds *)

(** [IsNull] and [IsUnknown] of the framework's values. *)
Definition StringValue_IsNull (s : basetypes.StringValue) : bool :=
  if s is basetypes.NewStringNull then true else false.

Definition StringValue_IsUnknown (s : basetypes.StringValue) : bool :=
  if s is basetypes.NewStringUnknown then true else false.

Definition BoolValue_IsNull (b : basetypes.BoolValue) : bool :=
  if b is basetypes.NewBoolNull then true else false.

Definition BoolValue_IsUnknown (b : basetypes.BoolValue) : bool :=
  if b is basetypes.NewBoolUnknown then true else false.

(** [strconv.ParseBool(str)]: the value, and whether the error is not nil. *)
Definition ParseBool (str : string) : bool * bool :=
  if bool_decide (str ∈ ["1"; "t"; "T"; "TRUE"; "true"; "True"]) then (true, false)
  else if bool_decide (str ∈ ["0"; "f"; "F"; "FALSE"; "false"; "False"]) then (false, false)
  else (false, true).

(** A Go value of type [any] that is nil, a pointer to a client, or something
    else. *)
Inductive any :=
| any_nil
| any_client (c : client)
| any_other.

Module attrdiag.

(** A diagnostic with the attribute path it is about, when it has one:
    [path.Root(name)] is [Some name]. *)
Definition Diagnostic : Type := option string * diag.Diagnostic.

Definition Diagnostics : Type := list Diagnostic.

Definition NewAttributeErrorDiagnostic (path summary detail : string) : Diagnostic :=
  (Some path, diag.NewErrorDiagnostic summary detail).

Definition Contains (diags : Diagnostics) (d : Diagnostic) : bool :=
  bool_decide (d ∈ diags).

(** [Append]: the diagnostics not yet in the collection are added at its end. *)
Definition Append (diags : Diagnostics) (new : list Diagnostic) : Diagnostics :=
  foldl (λ acc d, if Contains acc d then acc else acc ++ [d]) diags new.

Definition AddAttributeError (diags : Diagnostics) (path summary detail : string) : Diagnostics :=
  Append diags [NewAttributeErrorDiagnostic path summary detail].

Definition HasError (diags : Diagnostics) : bool :=
  bool_decide (Exists (λ d : Diagnostic, diag.severity d.2 = diag.SeverityError) diags).

End attrdiag.

(** *** The provider with the authentication attribute *)

Module provider.

Record smtpProviderModel := {
  Host : basetypes.StringValue;
  Port : basetypes.StringValue;
  Authentication : basetypes.BoolValue;
  Username : basetypes.StringValue;
  Password : basetypes.StringValue
}.

(** [config.Authentication = b]. *)
Definition set_Authentication (config : smtpProviderModel) (b : basetypes.BoolValue)
  : smtpProviderModel :=
  {| Host := Host config; Port := Port config; Authentication := b;
     Username := Username config; Password := Password config |}.

(** [req.Config]: what [Get] decodes it to, and the diagnostics of decoding. *)
Record ConfigureRequest := {
  Config_Get : attrdiag.Diagnostics * smtpProviderModel
}.

Record ConfigureResponse := {
  Diagnostics : attrdiag.Diagnostics;
  DataSourceData : any;
  ResourceData : any
}.

(** [resp.Diagnostics.Append(diags...)] *)
Definition Diagnostics_Append (resp : ConfigureResponse) (diags : attrdiag.Diagnostics)
  : ConfigureResponse :=
  {| Diagnostics := attrdiag.Append (Diagnostics resp) diags;
     DataSourceData := DataSourceData resp; ResourceData := ResourceData resp |}.

(** [resp.Diagnostics.AddAttributeError(path.Root(path), summary, detail)] *)
Definition AddAttributeError (resp : ConfigureResponse) (path summary detail : string)
  : ConfigureResponse :=
  {| Diagnostics := attrdiag.AddAttributeError (Diagnostics resp) path summary detail;
     DataSourceData := DataSourceData resp; ResourceData := ResourceData resp |}.

(** [Configure], lines 84 to 247; [Getenv] is [os.Getenv]. The calls of tflog
    change nothing here and are left out. *)
Definition Configure (Getenv : string → string) (req : ConfigureRequest)
    (resp : ConfigureResponse) : ConfigureResponse :=
  (* Retrieve provider data from configuration *)
  let '(diags, config) := Config_Get req in
  let resp := Diagnostics_Append resp diags in
  if attrdiag.HasError (Diagnostics resp) then resp else
  (* If practitioner provided a configuration value for any of the
     attributes, it must be a known value. *)
  let resp :=
    if StringValue_IsUnknown (Host config)
    then AddAttributeError resp "host"
        "Unknown SMTP Host"
        ("The provider cannot connect to SMTP as there is an unknown configuration value for the SMTP host. " +:+
           "Either target apply the source of the value first, set the value statically in the configuration, or use the SMTP_HOST environment variable.")
    else resp in
  let resp :=
    if StringValue_IsUnknown (Port config)
    then AddAttributeError resp "port"
        "Unknown SMTP port"
        ("The provider cannot create the SMTP client as there is an unknown configuration value for the SMTP port. " +:+
           "Either target apply the source of the value first, set the value statically in the configuration, or use the SMTP_PASSWORD environment variable.")
    else resp in
  let config :=
    if BoolValue_IsUnknown (Authentication config)
    then set_Authentication config (basetypes.NewBoolValue true)
    else config in
  let resp :=
    if basetypes.ValueBool (Authentication config)
         && StringValue_IsUnknown (Username config)
    then AddAttributeError resp "username"
        "Unknown SMTP Username"
        ("The provider cannot create the SMTP client as there is an unknown configuration value for the SMTP username. " +:+
           "Either target apply the source of the value first, set the value statically in the configuration, or use the SMTP_USERNAME environment variable.")
    else resp in
  let resp :=
    if basetypes.ValueBool (Authentication config)
         && StringValue_IsUnknown (Password config)
    then AddAttributeError resp "password"
        "Unknown SMTP Password"
        ("The provider cannot create the SMTP client as there is an unknown configuration value for the SMTP password. " +:+
           "Either target apply the source of the value first, set the value statically in the configuration, or use the SMTP_PASSWORD environment variable.")
    else resp in
  if attrdiag.HasError (Diagnostics resp) then resp else
  (* Default values to environment variables, but override
     with Terraform configuration value if set. *)
  let host := Getenv "SMTP_HOST" in
  let port := Getenv "SMTP_PORT" in
  let username := Getenv "SMTP_USERNAME" in
  let password := Getenv "SMTP_PASSWORD" in
  let '(authentication, err) := ParseBool (Getenv "SMTP_AUTHENTICATION") in
  let authentication := if err : bool then true else authentication in
  let host :=
    if negb (StringValue_IsNull (Host config))
    then basetypes.ValueString (Host config) else host in
  let port :=
    if negb (StringValue_IsNull (Port config))
    then basetypes.ValueString (Port config) else port in
  let authentication :=
    if negb (BoolValue_IsNull (Authentication config))
    then basetypes.ValueBool (Authentication config) else authentication in
  let username :=
    if negb (StringValue_IsNull (Username config))
    then basetypes.ValueString (Username config) else username in
  let password :=
    if negb (StringValue_IsNull (Password config))
    then basetypes.ValueString (Password config) else password in
  (* If any of the expected configurations are missing, return
     errors with provider-specific guidance. *)
  let resp :=
    if bool_decide (host = "")
    then AddAttributeError resp "host"
        "Missing SMTP Host"
        ("The provider cannot create the SMTP client as there is a missing or empty value for the SMTP host. " +:+
           "Set the host value in the configuration or use the SMTP_HOST environment variable. " +:+
           "If either is already set, ensure the value is not empty.")
    else resp in
  let resp :=
    if bool_decide (port = "")
    then AddAttributeError resp "port"
        "Missing SMTP host port"
        ("The provider cannot create the SMTP client as there is a missing or empty value for the SMTP port. " +:+
           "Set the host value in the configuration or use the SMTP_PORT environment variable. " +:+
           "If either is already set, ensure the value is not empty.")
    else resp in
  let resp :=
    if authentication && bool_decide (username = "")
    then AddAttributeError resp "username"
        "Missing SMTP Username"
        ("The provider cannot create the SMTP client as there is a missing or empty value for the SMTP username. " +:+
           "Set the username value in the configuration or use the SMTP_USERNAME environment variable. " +:+
           "If either is already set, ensure the value is not empty.")
    else resp in
  let resp :=
    if authentication && bool_decide (password = "")
    then AddAttributeError resp "password"
        "Missing SMTP Password"
        ("The provider cannot create the SMTP client as there is a missing or empty value for the SMTP password. " +:+
           "Set the password value in the configuration or use the SMTP_PASSWORD environment variable. " +:+
           "If either is already set, ensure the value is not empty.")
    else resp in
  if attrdiag.HasError (Diagnostics resp) then resp else
  (* Create a new SMTP client using the configuration values *)
  let auth := None in
  let auth :=
    if authentication : bool then Some (smtp.PlainAuth "" username password host)
    else auth in
  let client := {| host := host; port := port; username := username; auth := auth |} in
  (* Make the SMTP client available during DataSource and Resource
     type Configure methods. *)
  {| Diagnostics := Diagnostics resp;
     DataSourceData := any_client client;
     ResourceData := any_client client |}.

End provider.

(** *** The provider without the authentication attribute (smtp/provider.go) *)

Module provider_basic.

Record smtpProviderModel := {
  Host : basetypes.StringValue;
  Port : basetypes.StringValue;
  Username : basetypes.StringValue;
  Password : basetypes.StringValue
}.

Record ConfigureRequest := {
  Config_Get : attrdiag.Diagnostics * smtpProviderModel
}.

(** [Configure], lines 78 to 224, on the response of [provider]. *)
Definition Configure (Getenv : string → string) (req : ConfigureRequest)
    (resp : provider.ConfigureResponse) : provider.ConfigureResponse :=
  let AddAttributeError := provider.AddAttributeError in
  (* Retrieve provider data from configuration *)
  let '(diags, config) := Config_Get req in
  let resp := provider.Diagnostics_Append resp diags in
  if attrdiag.HasError (provider.Diagnostics resp) then resp else
  (* If practitioner provided a configuration value for any of the
     attributes, it must be a known value. *)
  let resp :=
    if StringValue_IsUnknown (Host config)
    then AddAttributeError resp "host"
        "Unknown SMTP Host"
        ("The provider cannot create the HashiCups API client as there is an unknown configuration value for the HashiCups API host. " +:+
           "Either target apply the source of the value first, set the value statically in the configuration, or use the HASHICUPS_HOST environment variable.")
    else resp in
  let resp :=
    if StringValue_IsUnknown (Port config)
    then AddAttributeError resp "port"
        "Unknown SMTP port"
        ("The provider cannot create the HashiCups API client as there is an unknown configuration value for the HashiCups API host. " +:+
           "Either target apply the source of the value first, set the value statically in the configuration, or use the HASHICUPS_HOST environment variable.")
    else resp in
  let resp :=
    if StringValue_IsUnknown (Username config)
    then AddAttributeError resp "username"
        "Unknown HashiCups API Username"
        ("The provider cannot create the HashiCups API client as there is an unknown configuration value for the HashiCups API username. " +:+
           "Either target apply the source of the value first, set the value statically in the configuration, or use the HASHICUPS_USERNAME environment variable.")
    else resp in
  let resp :=
    if StringValue_IsUnknown (Password config)
    then AddAttributeError resp "password"
        "Unknown HashiCups API Password"
        ("The provider cannot create the HashiCups API client as there is an unknown configuration value for the HashiCups API password. " +:+
           "Either target apply the source of the value first, set the value statically in the configuration, or use the HASHICUPS_PASSWORD environment variable.")
    else resp in
  if attrdiag.HasError (provider.Diagnostics resp) then resp else
  (* Default values to environment variables, but override
     with Terraform configuration value if set. *)
  let host := Getenv "SMTP_HOST" in
  let port := Getenv "SMTP_PORT" in
  let username := Getenv "SMTP_USERNAME" in
  let password := Getenv "SMTP_PASSWORD" in
  let host :=
    if negb (StringValue_IsNull (Host config))
    then basetypes.ValueString (Host config) else host in
  let port :=
    if negb (StringValue_IsNull (Port config))
    then basetypes.ValueString (Port config) else port in
  let username :=
    if negb (StringValue_IsNull (Username config))
    then basetypes.ValueString (Username config) else username in
  let password :=
    if negb (StringValue_IsNull (Password config))
    then basetypes.ValueString (Password config) else password in
  (* If any of the expected configurations are missing, return
     errors with provider-specific guidance. *)
  let resp :=
    if bool_decide (host = "")
    then AddAttributeError resp "host"
        "Missing HashiCups API Host"
        ("The provider cannot create the HashiCups API client as there is a missing or empty value for the HashiCups API host. " +:+
           "Set the host value in the configuration or use the HASHICUPS_HOST environment variable. " +:+
           "If either is already set, ensure the value is not empty.")
    else resp in
  let resp :=
    if bool_decide (port = "")
    then AddAttributeError resp "port"
        "Missing SMTP host port"
        ("The provider cannot create the HashiCups API client as there is a missing or empty value for the HashiCups API host. " +:+
           "Set the host value in the configuration or use the HASHICUPS_HOST environment variable. " +:+
           "If either is already set, ensure the value is not empty.")
    else resp in
  let resp :=
    if bool_decide (username = "")
    then AddAttributeError resp "username"
        "Missing HashiCups API Username"
        ("The provider cannot create the HashiCups API client as there is a missing or empty value for the HashiCups API username. " +:+
           "Set the username value in the configuration or use the HASHICUPS_USERNAME environment variable. " +:+
           "If either is already set, ensure the value is not empty.")
    else resp in
  let resp :=
    if bool_decide (password = "")
    then AddAttributeError resp "password"
        "Missing HashiCups API Password"
        ("The provider cannot create the HashiCups API client as there is a missing or empty value for the HashiCups API password. " +:+
           "Set the password value in the configuration or use the HASHICUPS_PASSWORD environment variable. " +:+
           "If either is already set, ensure the value is not empty.")
    else resp in
  if attrdiag.HasError (provider.Diagnostics resp) then resp else
  (* Create a new client using the configuration values *)
  let auth := smtp.PlainAuth "" username password host in
  let client := {| host := host; port := port; username := username; auth := Some auth |} in
  {| provider.Diagnostics := provider.Diagnostics resp;
     provider.DataSourceData := any_client client;
     provider.ResourceData := any_client client |}.

End provider_basic.

(** *** The resource's Configure *)

(** [Configure] of the resource, lines 50 to 56, on the client pointer of the
    resource (nil when [None]): nil provider data leaves it, a client is
    stored, and the type assertion panics on anything else. *)
Definition resource_Configure (r_client : option client) (ProviderData : any)
  : option client * Flow unit :=
  match ProviderData with
  | any_nil => (r_client, Return)
  | any_client c => (Some c, Next ())
  | any_other => (r_client, Panic)
  end.

(** *** What Configure settles on, and its diagnostics by attribute *)

(** The value taken for a string setting: the configuration's unless it is
    null, the environment's then. *)
Definition effective (v : basetypes.StringValue) (env : string) : string :=
  if negb (StringValue_IsNull v) then basetypes.ValueString v else env.

(** Whether the credentials are checked for unknown values: the
    authentication setting, as true when it is unknown and false when null. *)
Definition credentials_checked (config : provider.smtpProviderModel) : bool :=
  match provider.Authentication config with
  | basetypes.NewBoolValue b => b
  | basetypes.NewBoolUnknown => true
  | basetypes.NewBoolNull => false
  end.

(** Whether the client authenticates: the configuration's setting, true when
    it is unknown, and the environment's when it is null, true when that does
    not parse. *)
Definition authentication_of (Getenv : string → string)
    (config : provider.smtpProviderModel) : bool :=
  match provider.Authentication config with
  | basetypes.NewBoolValue b => b
  | basetypes.NewBoolUnknown => true
  | basetypes.NewBoolNull =>
      let '(b, err) := ParseBool (Getenv "SMTP_AUTHENTICATION") in
      if err : bool then true else b
  end.

(** The attribute and the summary of each diagnostic. *)
Definition labels (diags : attrdiag.Diagnostics) : list (option string * string) :=
  (λ d, (d.1, diag.Summary d.2)) <$> diags.

Definition is_error (d : attrdiag.Diagnostic) : bool :=
  bool_decide (diag.severity d.2 = diag.SeverityError).

Definition when {A} (b : bool) (x : A) : list A := if b then [x] else [].

(** One check of Configure: an attribute error under a condition. *)
Definition check (b : bool) (p s d : string) (resp : provider.ConfigureResponse)
  : provider.ConfigureResponse :=
  if b then provider.AddAttributeError resp p s d else resp.

(** The unknown values that Configure reports, by attribute and summary in
    the order of the checks, and the missing ones. *)
Definition unknown_values (config : provider.smtpProviderModel)
  : list (option string * string) :=
  when (StringValue_IsUnknown (provider.Host config)) (Some "host", "Unknown SMTP Host")
  ++ when (StringValue_IsUnknown (provider.Port config)) (Some "port", "Unknown SMTP port")
  ++ when (credentials_checked config && StringValue_IsUnknown (provider.Username config))
       (Some "username", "Unknown SMTP Username")
  ++ when (credentials_checked config && StringValue_IsUnknown (provider.Password config))
       (Some "password", "Unknown SMTP Password").

Definition missing_values (Getenv : string → string) (config : provider.smtpProviderModel)
  : list (option string * string) :=
  when (bool_decide (effective (provider.Host config) (Getenv "SMTP_HOST") = ""))
    (Some "host", "Missing SMTP Host")
  ++ when (bool_decide (effective (provider.Port config) (Getenv "SMTP_PORT") = ""))
       (Some "port", "Missing SMTP host port")
  ++ when (authentication_of Getenv config
           && bool_decide (effective (provider.Username config) (Getenv "SMTP_USERNAME") = ""))
       (Some "username", "Missing SMTP Username")
  ++ when (authentication_of Getenv config
           && bool_decide (effective (provider.Password config) (Getenv "SMTP_PASSWORD") = ""))
       (Some "password", "Missing SMTP Password").

(** The client that Configure builds. *)
Definition configured_client (Getenv : string → string) (config : provider.smtpProviderModel)
  : client :=
  let host := effective (provider.Host config) (Getenv "SMTP_HOST") in
  let username := effective (provider.Username config) (Getenv "SMTP_USERNAME") in
  {| auth := if authentication_of Getenv config
             then Some (smtp.PlainAuth "" username
                          (effective (provider.Password config) (Getenv "SMTP_PASSWORD")) host)
             else None;
     host := host; username := username;
     port := effective (provider.Port config) (Getenv "SMTP_PORT") |}.

(** The same for the provider without the authentication attribute. *)
Definition basic_unknown_values (config : provider_basic.smtpProviderModel)
  : list (option string * string) :=
  when (StringValue_IsUnknown (provider_basic.Host config)) (Some "host", "Unknown SMTP Host")
  ++ when (StringValue_IsUnknown (provider_basic.Port config)) (Some "port", "Unknown SMTP port")
  ++ when (StringValue_IsUnknown (provider_basic.Username config))
       (Some "username", "Unknown HashiCups API Username")
  ++ when (StringValue_IsUnknown (provider_basic.Password config))
       (Some "password", "Unknown HashiCups API Password").

Definition basic_missing_values (Getenv : string → string)
    (config : provider_basic.smtpProviderModel) : list (option string * string) :=
  when (bool_decide (effective (provider_basic.Host config) (Getenv "SMTP_HOST") = ""))
    (Some "host", "Missing HashiCups API Host")
  ++ when (bool_decide (effective (provider_basic.Port config) (Getenv "SMTP_PORT") = ""))
       (Some "port", "Missing SMTP host port")
  ++ when (bool_decide (effective (provider_basic.Username config) (Getenv "SMTP_USERNAME") = ""))
       (Some "username", "Missing HashiCups API Username")
  ++ when (bool_decide (effective (provider_basic.Password config) (Getenv "SMTP_PASSWORD") = ""))
       (Some "password", "Missing HashiCups API Password").

Definition basic_configured_client (Getenv : string → string)
    (config : provider_basic.smtpProviderModel) : client :=
  let host := effective (provider_basic.Host config) (Getenv "SMTP_HOST") in
  let username := effective (provider_basic.Username config) (Getenv "SMTP_USERNAME") in
  {| auth := Some (smtp.PlainAuth "" username
                     (effective (provider_basic.Password config) (Getenv "SMTP_PASSWORD"))
                     host);
     host := host; username := username;
     port := effective (provider_basic.Port config) (Getenv "SMTP_PORT") |}.

(** *** Example configurations *)

Definition no_environment : string → string := λ _, "".

Definition fresh_response : provider.ConfigureResponse :=
  {| provider.Diagnostics := []; provider.DataSourceData := any_nil;
     provider.ResourceData := any_nil |}.

(** The two provider configurations of the documentation. *)
Definition config_with_credentials : provider.ConfigureRequest :=
  {| provider.Config_Get :=
       ([], {| provider.Host := known "smtp.example.com"; provider.Port := known "587";
               provider.Authentication := basetypes.NewBoolNull;
               provider.Username := known "test";
               provider.Password := known "test123" |}) |}.

Definition config_without_authentication : provider.ConfigureRequest :=
  {| provider.Config_Get :=
       ([], {| provider.Host := known "smtp.example.com"; provider.Port := known "25";
               provider.Authentication := basetypes.NewBoolValue false;
               provider.Username := basetypes.NewStringNull;
               provider.Password := basetypes.NewStringNull |}) |}.

(** A configuration that sets nothing, and one whose values are all unknown. *)
Definition config_empty : provider.ConfigureRequest :=
  {| provider.Config_Get :=
       ([], {| provider.Host := basetypes.NewStringNull; provider.Port := basetypes.NewStringNull;
               provider.Authentication := basetypes.NewBoolNull;
               provider.Username := basetypes.NewStringNull;
               provider.Password := basetypes.NewStringNull |}) |}.

Definition config_unknown : provider.ConfigureRequest :=
  {| provider.Config_Get :=
       ([], {| provider.Host := basetypes.NewStringUnknown;
               provider.Port := basetypes.NewStringUnknown;
               provider.Authentication := basetypes.NewBoolUnknown;
               provider.Username := basetypes.NewStringUnknown;
               provider.Password := basetypes.NewStringUnknown |}) |}.

(** The first configuration of the documentation for the provider without
    the authentication attribute. *)
Definition basic_config_with_credentials : provider_basic.ConfigureRequest :=
  {| provider_basic.Config_Get :=
       ([], {| provider_basic.Host := known "smtp.example.com";
               provider_basic.Port := known "587";
               provider_basic.Username := known "test";
               provider_basic.Password := known "test123" |}) |}.

(** A request without recipients. *)
Definition nobody : @Plan basetypes.StringValue :=
  request [] [] [] "Hi" "Hello" false.

(** An environment that sets the user name only. *)
Definition username_environment : string → string :=
  λ name, if bool_decide (name = "SMTP_USERNAME") then "test" else "".


(** ** Properties *)

(** *** Strings *)

Lemma append_assoc (s1 s2 s3 : string) :
  (s1 +:+ s2) +:+ s3 = s1 +:+ s2 +:+ s3.
Proof.
  induction s1 as [|c s1 IH]; [done|].
  change (String c ((s1 +:+ s2) +:+ s3) = String c (s1 +:+ s2 +:+ s3)).
  by rewrite IH.
Qed.

(** On ASCII text Quote does not come to the Unicode tables. *)
Lemma Quote_ascii (wide1 wide2 : string → string) (s : string) :
  Forall (λ c, byte_value c < 128) (String.list_ascii_of_string s) →
  strconv.Quote wide1 s = strconv.Quote wide2 s.
Proof.
  intros Hs. unfold strconv.Quote. f_equal.
  induction s as [|c s IH]; [done|].
  apply Forall_cons in Hs as [Hc Hs]. simpl.
  apply Z.ltb_lt in Hc. rewrite Hc. by rewrite IH.
Qed.

(** *** The digest and its hexadecimal form *)

Lemma length_bytes_of_word n w : length (md5.bytes_of_word n w) = n.
Proof. unfold md5.bytes_of_word. by rewrite length_fmap, length_seq. Qed.

Lemma bytes_of_word_range n w :
  Forall (λ b, 0 ≤ b < 256) (md5.bytes_of_word n w).
Proof.
  unfold md5.bytes_of_word. apply Forall_fmap, Forall_forall.
  intros k _. simpl. apply Z.mod_pos_bound. lia.
Qed.

(** The digest has 16 bytes, 128 bits. *)
Lemma length_Sum data : length (md5.Sum data) = md5.Size.
Proof.
  unfold md5.Sum. destruct (foldl _ _ _) as [a b c d].
  by rewrite !length_app, !length_bytes_of_word.
Qed.

Lemma Sum_range data : Forall (λ b, 0 ≤ b < 256) (md5.Sum data).
Proof.
  unfold md5.Sum. destruct (foldl _ _ _) as [a b c d].
  rewrite !Forall_app. split_and!; apply bytes_of_word_range.
Qed.

Lemma lowerhex_digit n : 0 ≤ n < 16 → is_lower_hex (strconv.lowerhex n) = true.
Proof.
  intros Hn. replace n with (Z.of_nat (Z.to_nat n)) by lia.
  assert (Z.to_nat n < 16)%nat as Hk by lia.
  generalize dependent (Z.to_nat n). clear Hn. intros k Hk.
  do 16 (destruct k as [|k]; [reflexivity|]). lia.
Qed.

Lemma length_Sprintf_x b : String.length (fmt.Sprintf_x b) = (2 * length b)%nat.
Proof.
  induction b as [|x b IH]; [done|].
  change (S (S (String.length (fmt.Sprintf_x b))) = (2 * S (length b))%nat). lia.
Qed.

Lemma Sprintf_x_digits b :
  Forall (λ x, 0 ≤ x < 256) b →
  Forall (λ c, is_lower_hex c = true) (String.list_ascii_of_string (fmt.Sprintf_x b)).
Proof.
  induction 1 as [|x b Hx _ IH]; [constructor|].
  change (Forall (λ c, is_lower_hex c = true)
            (strconv.lowerhex (Z.shiftr x 4) :: strconv.lowerhex (Z.land x 15)
               :: String.list_ascii_of_string (fmt.Sprintf_x b))).
  repeat constructor; [| |exact IH]; apply lowerhex_digit.
  - rewrite Z.shiftr_div_pow2 by lia.
    split; [apply Z.div_pos; lia|apply Z.div_lt_upper_bound; lia].
  - change 15 with (Z.ones 4). rewrite Z.land_ones by lia.
    apply Z.mod_pos_bound. lia.
Qed.

(** An identifier is 32 lowercase hexadecimal digits. *)
Lemma identifier_form m :
  String.length (identifier m) = 32%nat
  ∧ Forall (λ c, is_lower_hex c = true) (String.list_ascii_of_string (identifier m)).
Proof.
  unfold identifier. split.
  - by rewrite length_Sprintf_x, length_Sum.
  - apply Sprintf_x_digits, Sum_range.
Qed.

Section normalizer.

Context {Value : Type} `{Countable Value}.

(** *** The recipient normalizer *)

Lemma elem_of_unseen (seen arr : list Value) x :
  x ∈ unseen seen arr ↔ x ∈ arr ∧ x ∉ seen.
Proof.
  revert seen. induction arr as [|v arr IH]; intros seen; simpl.
  - set_solver.
  - case_decide as Hv.
    + rewrite IH, elem_of_cons. split; [naive_solver|].
      intros [[->|Hx] Hs]; done.
    + rewrite elem_of_cons, IH, elem_of_cons, not_elem_of_app, list_elem_of_singleton.
      destruct (decide (x = v)) as [->|Hne]; naive_solver.
Qed.

Lemma NoDup_unseen (seen arr : list Value) : NoDup (unseen seen arr).
Proof.
  revert seen. induction arr as [|v arr IH]; intros seen; simpl.
  - constructor.
  - case_decide as Hv; [apply IH|].
    constructor; [|apply IH].
    rewrite elem_of_unseen. set_solver.
Qed.

(** An element of the result stands where the input has it first, after the
    first occurrences of the elements before it in the result. *)
Lemma unseen_first (seen arr : list Value) j y :
  unseen seen arr !! j = Some y →
  ∃ l1 l2, arr = l1 ++ (y :: l2) ∧ (y ∉ l1) ∧ (y ∉ seen)
    ∧ ∀ i x, (i < j)%nat → unseen seen arr !! i = Some x → x ∈ l1.
Proof.
  revert seen j. induction arr as [|v arr IH]; intros seen j; simpl; [done|].
  case_decide as Hv.
  - intros Hj. destruct (IH _ _ Hj) as (l1 & l2 & -> & Hy1 & Hy2 & Hbefore).
    exists (v :: l1), l2. split_and!; [done| |done|].
    + rewrite not_elem_of_cons. split; [|done]. by intros ->.
    + intros i x Hi Hx. right. eauto.
  - destruct j as [|j]; simpl.
    + intros [= ->]. exists [], arr. split_and!; [done|set_solver|done|].
      intros i x Hi. lia.
    + intros Hj. destruct (IH _ _ Hj) as (l1 & l2 & -> & Hy1 & Hy2 & Hbefore).
      exists (v :: l1), l2. split_and!; [done|set_solver|set_solver|].
      intros [|i] x Hi; simpl.
      * intros [= ->]. left.
      * intros Hx. right. apply (Hbefore i); [lia|done].
Qed.

(** The loop of [uniqueAttrValue]: the map holds the values of the result. *)
Lemma uniqueAttrValue_loop (arr : list Value) (occurred : gmap Value bool) result :
  (∀ v, default false (occurred !! v) = true ↔ v ∈ result) →
  (foldl (λ '(occurred, result) v,
            if negb (default false ((occurred : gmap Value bool) !! v))
            then (<[v := true]> occurred, result ++ [v])
            else (occurred, result))
         (occurred, result) arr).2
  = result ++ unseen result arr.
Proof.
  revert occurred result. induction arr as [|v arr IH]; intros occurred result Hinv; simpl.
  - by rewrite app_nil_r.
  - destruct (default false (occurred !! v)) eqn:Ev; simpl.
    + rewrite decide_True by by apply Hinv. by apply IH.
    + rewrite decide_False by (rewrite <- Hinv, Ev; done).
      rewrite IH.
      * by rewrite <- app_assoc.
      * intros v'. rewrite elem_of_app, list_elem_of_singleton, <- Hinv.
        destruct (decide (v = v')) as [->|Hne].
        -- rewrite lookup_insert_eq. simpl. naive_solver.
        -- rewrite lookup_insert_ne by done. naive_solver.
Qed.

Lemma uniqueAttrValue_unseen (arr : list Value) :
  uniqueAttrValue arr = unseen [] arr.
Proof.
  unfold uniqueAttrValue. rewrite uniqueAttrValue_loop; [done|].
  intros v. rewrite lookup_empty. simpl. split; [done|]. by intros ?%elem_of_nil.
Qed.

(** C2. The recipient normalizer on to ++ cc ++ bcc returns every value of the
    concatenation, each exactly once, in the order of first occurrence: a
    value of the result stands in the concatenation where no equal value
    stands before it, and after the values that precede it in the result.
    Values are equal when they are the same value: there is no folding of
    case and no canonical form. *)
Theorem uniqueAttrValue_first_occurrences (to cc bcc : list Value) :
  let l := to ++ cc ++ bcc in
  let r := uniqueAttrValue l in
  NoDup r
  ∧ (∀ x, x ∈ r ↔ x ∈ l)
  ∧ (∀ j y, r !! j = Some y →
       ∃ l1 l2, l = l1 ++ (y :: l2) ∧ (y ∉ l1)
         ∧ ∀ i x, (i < j)%nat → r !! i = Some x → x ∈ l1).
Proof.
  intros l r. subst r. rewrite uniqueAttrValue_unseen. split_and!.
  - apply NoDup_unseen.
  - intros x. rewrite elem_of_unseen. set_solver.
  - intros j y Hj.
    destruct (unseen_first _ _ _ _ Hj) as (l1 & l2 & E & Hy & _ & Hbefore).
    by exists l1, l2.
Qed.

(** *** More on the normalizer: what it keeps, and how it composes *)

Lemma unseen_ext (s1 s2 arr : list Value) :
  (∀ x, x ∈ s1 ↔ x ∈ s2) → unseen s1 arr = unseen s2 arr.
Proof.
  revert s1 s2. induction arr as [|v arr IH]; intros s1 s2 Hs; [done|]. simpl.
  destruct (decide (v ∈ s1)) as [H1|H1].
  - rewrite decide_True by by apply Hs. by apply IH.
  - rewrite decide_False by by rewrite <- Hs. f_equal. apply IH.
    intros x. rewrite !elem_of_app. by rewrite Hs.
Qed.

Lemma unseen_NoDup_id (seen arr : list Value) :
  NoDup arr → (∀ x, x ∈ arr → x ∉ seen) → unseen seen arr = arr.
Proof.
  revert seen. induction arr as [|v arr IH]; intros seen Hnd Hs; [done|]. simpl.
  apply NoDup_cons in Hnd as [Hv Hnd].
  rewrite decide_False by (apply Hs; left). f_equal. apply IH; [done|].
  intros x Hx. rewrite not_elem_of_app, list_elem_of_singleton. split.
  - apply Hs. by right.
  - by intros ->.
Qed.

Lemma unseen_filter (s t arr : list Value) :
  unseen (s ++ t) arr = filter (λ x, x ∉ s) (unseen t arr).
Proof.
  revert s t. induction arr as [|v arr IH]; intros s t; [done|]. simpl.
  destruct (decide (v ∈ t)) as [Ht|Ht].
  - rewrite decide_True by (apply elem_of_app; by right). apply IH.
  - destruct (decide (v ∈ s)) as [Hs|Hs].
    + rewrite decide_True by (apply elem_of_app; by left).
      rewrite filter_cons_False by by intros Hn.
      rewrite <- IH. apply unseen_ext. intros x.
      rewrite !elem_of_app, list_elem_of_singleton. naive_solver.
    + rewrite decide_False by (rewrite elem_of_app; naive_solver).
      rewrite filter_cons_True by done. f_equal.
      rewrite <- IH. by rewrite <- app_assoc.
Qed.

Lemma unseen_app (seen l1 l2 : list Value) :
  unseen seen (l1 ++ l2) = unseen seen l1 ++ unseen (seen ++ l1) l2.
Proof.
  revert seen. induction l1 as [|v l1 IH]; intros seen; simpl.
  - by rewrite app_nil_r.
  - destruct (decide (v ∈ seen)) as [Hv|Hv].
    + rewrite IH. f_equal. apply unseen_ext. intros x.
      rewrite !elem_of_app, elem_of_cons. naive_solver.
    + rewrite IH. simpl. do 2 f_equal. apply unseen_ext. intros x.
      rewrite !elem_of_app, !elem_of_cons, elem_of_nil. naive_solver.
Qed.

(** The normalizer keeps a list without duplicates as it is (the empty list
    among them), is idempotent, and never returns more values than it is
    given. *)
Theorem uniqueAttrValue_idempotent (arr : list Value) :
  (NoDup arr → uniqueAttrValue arr = arr)
  ∧ uniqueAttrValue (uniqueAttrValue arr) = uniqueAttrValue arr
  ∧ (length (uniqueAttrValue arr) ≤ length arr)%nat.
Proof.
  assert (∀ l : list Value, NoDup l → uniqueAttrValue l = l) as Hid.
  { intros l Hl. rewrite uniqueAttrValue_unseen. apply unseen_NoDup_id; [done|].
    intros x _. apply not_elem_of_nil. }
  split_and!; [apply Hid| |].
  - apply Hid. rewrite uniqueAttrValue_unseen. apply NoDup_unseen.
  - rewrite uniqueAttrValue_unseen. generalize (@nil Value).
    induction arr as [|v arr IH]; intros seen; simpl; [lia|].
    case_decide; simpl; [specialize (IH seen)|specialize (IH (seen ++ [v]))]; lia.
Qed.

(** The normalizer on a concatenation: the normalized first list, then the
    values of the normalized second list that the first does not hold. So the
    recipients are the distinct to values, then the new cc values, then the
    new bcc values, and a cc or bcc value that to already holds adds
    nothing. *)
Theorem uniqueAttrValue_app (l1 l2 : list Value) :
  uniqueAttrValue (l1 ++ l2)
  = uniqueAttrValue l1 ++ filter (λ x, x ∉ l1) (uniqueAttrValue l2).
Proof.
  rewrite !uniqueAttrValue_unseen, unseen_app. f_equal.
  rewrite <- (app_nil_r ([] ++ l1)), <- app_assoc. simpl.
  by rewrite unseen_filter.
Qed.

End normalizer.

Section properties.

Set Default Proof Using "Type".

Context {Value : Type} `{Countable Value}.
Variable Value_String : Value → string.

#[local] Abbreviation model := (@sendMailModel Value).
#[local] Abbreviation world := (@World Value).
#[local] Abbreviation handler := (@Handler Value).

(** *** The monad of handlers *)

Lemma bind_ext {A B} (m : handler A) (k k' : A → handler B) srv (w : world) :
  (∀ a w1, k a srv w1 = k' a srv w1) →
  (m ≫= k) srv w = (m ≫= k') srv w.
Proof.
  intros Hk. unfold mbind, Handler_bind.
  destruct (m srv w) as [w1 [a| |]]; auto.
Qed.

Lemma bind_assoc {A B C} (m : handler A) (f : A → handler B) (g : B → handler C) srv (w : world) :
  ((m ≫= f) ≫= g) srv w = (m ≫= (λ a, f a ≫= g)) srv w.
Proof.
  unfold mbind, Handler_bind.
  destruct (m srv w) as [w1 [a| |]]; auto.
Qed.

Lemma ret_bind {A B} (a : A) (k : A → handler B) srv (w : world) :
  (mret a ≫= k) srv w = k a srv w.
Proof. reflexivity. Qed.

(** *** Steps *)

Lemma bind_step c s (k k' : handler ()) srv (w : world) :
  (∀ w1, k srv w1 = k' srv w1) →
  (err ← conn_call c; return_on err s ;; k) srv w = (step (c, s) ;; k') srv w.
Proof.
  intros Hk. unfold step. rewrite bind_assoc. apply bind_ext.
  intros err w1. apply bind_ext. intros _ w2. apply Hk.
Qed.

Lemma asStringList_fmap (arr : list Value) :
  asStringList Value_String arr = Value_String <$> arr.
Proof.
  unfold asStringList.
  enough (∀ acc, foldl (λ result i, result ++ [Value_String i]) acc arr
                 = acc ++ (Value_String <$> arr)) as E by apply (E []).
  induction arr as [|a arr IH]; intros acc; simpl.
  - by rewrite app_nil_r.
  - rewrite IH, <- app_assoc. done.
Qed.

(** *** The handlers go through the steps of their script *)

Lemma chain_step c s l (K k : handler ()) srv (w : world) :
  (∀ w1, K srv w1 = (steps l ;; k) srv w1) →
  (err ← conn_call c; return_on err s ;; K) srv w = (steps ((c, s) :: l) ;; k) srv w.
Proof.
  intros HK.
  change (steps ((c, s) :: l)) with (step (c, s) ;; steps l : handler ()).
  rewrite (bind_assoc (step (c, s))). by apply bind_step.
Qed.

Lemma chain_for (l : list Value) rest (K k : handler ()) srv (w : world) :
  (∀ w1, K srv w1 = (steps rest ;; k) srv w1) →
  (for_range l (λ addr,
     err ← conn_call (smtp.Rcpt (Value_String addr));
     return_on err "Error setting recipient address:") ;; K) srv w
  = (steps ((rcpt Value_String <$> l) ++ rest) ;; k) srv w.
Proof.
  intros HK. revert w. induction l as [|a l IH]; intros w.
  - simpl. rewrite ret_bind. apply HK.
  - simpl for_range. rewrite bind_assoc.
    change (steps ((rcpt Value_String <$> a :: l) ++ rest))
      with (step (rcpt Value_String a) ;; steps ((rcpt Value_String <$> l) ++ rest) : handler ()).
    rewrite (bind_assoc (step _)). apply bind_ext. intros _ w1. apply IH.
Qed.

Lemma msg_raw (plan : model) :
  "To: " +:+ strings.Join (asStringList Value_String (basetypes.Elements (To plan))) ", " +:+ CRLF +:+
  "Cc: " +:+ strings.Join (asStringList Value_String (basetypes.Elements (Cc plan))) ", " +:+ CRLF +:+
  "Subject: " +:+ basetypes.ValueString (Subject plan) +:+ CRLF +:+
  (if basetypes.ValueBool (RenderHtml plan) then mime_html else "") +:+
  CRLF +:+
  basetypes.ValueString (Body plan) +:+ CRLF
  = message Value_String plan.
Proof.
  unfold message, raw, headerBlock, mimeBlock. rewrite !asStringList_fmap.
  by rewrite !append_assoc.
Qed.

Lemma Create_send r req srv (w : world) :
  Create Value_String r req srv w
  = send Value_String (script Value_String OpCreate r (Get (CreateRequest_Plan req)).2)
      (Get (CreateRequest_Plan req)) srv w.
Proof.
  unfold Create, send. destruct (Get _) as [diags plan]. cbv zeta.
  rewrite msg_raw, <- (assoc_L (++)).
  apply bind_ext; intros _ w1. apply bind_ext; intros has w2.
  apply bind_ext; intros _ w3. cbn [snd].
  unfold script, prelude, session_prelude, connect, mail_from, data, secure,
    finish, sent_state, identifier.
  apply chain_step; intros w4.
  destruct (auth (client_of r)) as [a|] eqn:Ea.
  - rewrite bind_assoc. apply chain_step; intros w5.
    rewrite bind_assoc. apply chain_step; intros w6.
    apply chain_step; intros w7. apply chain_for; intros w8.
    do 3 (apply chain_step; intros ?). reflexivity.
  - do 2 rewrite ret_bind.
    apply chain_step; intros w7. apply chain_for; intros w8.
    do 3 (apply chain_step; intros ?). reflexivity.
Qed.

Lemma Update_send r req srv (w : world) :
  Update Value_String r req srv w
  = send Value_String (script Value_String OpUpdate r (Get (UpdateRequest_Plan req)).2)
      (Get (UpdateRequest_Plan req)) srv w.
Proof.
  unfold Update, send. destruct (Get _) as [diags plan]. cbv zeta.
  rewrite msg_raw, <- (assoc_L (++)).
  apply bind_ext; intros _ w1. apply bind_ext; intros has w2.
  apply bind_ext; intros _ w3. cbn [snd].
  unfold script, prelude, connect, mail_from, data, secure, finish, sent_state,
    identifier.
  do 4 (apply chain_step; intros ?). apply chain_for; intros w8.
  do 3 (apply chain_step; intros ?). reflexivity.
Qed.

Lemma handle_send op r p srv (w : world) :
  handle Value_String op r p srv w
  = send Value_String (script Value_String op r (Get p).2) (Get p) srv w.
Proof. destruct op; [apply Create_send | apply Update_send]. Qed.

(** *** How going through the steps ends *)

Lemma AddError_no_error (ds : diag.Diagnostics) summary detail :
  diag.HasError ds = false →
  diag.AddError ds summary detail = ds ++ [diag.NewErrorDiagnostic summary detail].
Proof.
  intros Hne. unfold diag.AddError, diag.Append, diag.Contains. simpl.
  case_bool_decide as Hin; [|done].
  unfold diag.HasError in Hne. apply bool_decide_eq_false in Hne.
  destruct Hne. apply Exists_exists. eexists. split; [exact Hin|done].
Qed.

Lemma step_cases c s srv (w : world) :
  step (c, s) srv w
    = ({| calls := calls w ++ [(c, smtp.Done)]; Diagnostics := Diagnostics w;
          State := State w |}, Next ())
  ∨ (∃ e, step (c, s) srv w
    = ({| calls := calls w ++ [(c, smtp.Failed e)];
          Diagnostics := diag.AddError (Diagnostics w) s e;
          State := State w |}, Return))
  ∨ (c = smtp.CallAuth None ∧ step (c, s) srv w
    = ({| calls := calls w ++ [(c, smtp.Panicked)]; Diagnostics := Diagnostics w;
          State := State w |}, Panic)).
Proof.
  unfold step, conn_call, mbind, Handler_bind. cbn [fst snd].
  destruct c as [| |[a|]| | | | |];
    try (destruct (srv (calls w).*1 _) as [e|]; [right; left; by exists e|by left]).
  right; right. done.
Qed.

Lemma steps_outcome l srv (w : world) :
  match (steps l srv w).2 with
  | Next _ =>
      calls (steps l srv w).1 = calls w ++ (done <$> l)
      ∧ Diagnostics (steps l srv w).1 = Diagnostics w
      ∧ State (steps l srv w).1 = State w
  | Return => ∃ n c s e,
      l !! n = Some (c, s)
      ∧ calls (steps l srv w).1 = calls w ++ (done <$> take n l) ++ [(c, smtp.Failed e)]
      ∧ Diagnostics (steps l srv w).1 = diag.AddError (Diagnostics w) s e
      ∧ State (steps l srv w).1 = State w
  | Panic => ∃ n s,
      l !! n = Some (smtp.CallAuth None, s)
      ∧ calls (steps l srv w).1
        = calls w ++ (done <$> take n l) ++ [(smtp.CallAuth None, smtp.Panicked)]
      ∧ Diagnostics (steps l srv w).1 = Diagnostics w
      ∧ State (steps l srv w).1 = State w
  end.
Proof.
  revert w. induction l as [|[c s] l IH]; intros w.
  - simpl. by rewrite app_nil_r.
  - change (steps ((c, s) :: l) srv w)
      with (match step (c, s) srv w with
            | (w', Next a) => steps l srv w'
            | (w', Return) => (w', Return)
            | (w', Panic) => (w', Panic)
            end).
    destruct (step_cases c s srv w) as [E|[[e E]|[-> E]]]; rewrite E.
    + specialize (IH {| calls := calls w ++ [(c, smtp.Done)];
                        Diagnostics := Diagnostics w; State := State w |}).
      destruct (steps l srv _) as [w' [[]| |]]; cbn [fst snd calls Diagnostics State] in *.
      * destruct IH as (-> & -> & ->). by rewrite <- app_assoc.
      * destruct IH as (n & c' & s' & e & Hn & -> & -> & ->).
        exists (S n), c', s', e. by rewrite <- app_assoc.
      * destruct IH as (n & s' & Hn & -> & -> & ->).
        exists (S n), s'. by rewrite <- app_assoc.
    + exists 0%nat, c, s, e. done.
    + exists 0%nat, s. done.
Qed.

Lemma send_unfold l diags (plan : model) srv (w : world) :
  send Value_String l (diags, plan) srv w
  = let w1 := {| calls := calls w; Diagnostics := diag.Append (Diagnostics w) diags;
                 State := State w |} in
    if diag.HasError (Diagnostics w1) then (w1, Return)
    else match steps l srv w1 with
         | (w2, Next _) => finish Value_String plan srv w2
         | (w2, Return) => (w2, Return)
         | (w2, Panic) => (w2, Panic)
         end.
Proof.
  unfold send, mbind, Handler_bind, Diagnostics_Append, Diagnostics_HasError.
  cbn [fst snd calls Diagnostics State].
  by destruct (diag.HasError (diag.Append (Diagnostics w) diags)).
Qed.

Lemma finish_unfold (plan : model) srv (w : world) :
  finish Value_String plan srv w
  = let w1 := {| calls := calls w; Diagnostics := Diagnostics w;
                 State := Some (sent_state Value_String plan) |} in
    if diag.HasError (Diagnostics w) then (w1, Return) else (w1, Next ()).
Proof.
  unfold finish, mbind, Handler_bind, State_Set, Diagnostics_Append, Diagnostics_HasError.
  cbn [fst snd calls Diagnostics State diag.Append foldl].
  by destruct (diag.HasError (Diagnostics w)).
Qed.

Lemma send_sent l diags (plan : model) srv ds st :
  if diag.HasError (diag.Append ds diags)
  then send Value_String l (diags, plan) srv (start ds st)
       = (start (diag.Append ds diags) st, Return)
  else sent Value_String l plan (start (diag.Append ds diags) st)
         (send Value_String l (diags, plan) srv (start ds st)).1
         (send Value_String l (diags, plan) srv (start ds st)).2.
Proof.
  rewrite send_unfold. unfold start. cbn [calls Diagnostics State]. cbv zeta.
  destruct (diag.HasError (diag.Append ds diags)) eqn:Hne; [done|].
  set (w1 := {| calls := []; Diagnostics := diag.Append ds diags; State := st |}).
  pose proof (steps_outcome l srv w1) as Ho.
  destruct (steps l srv w1) as [w' [[]| |]]; cbn [fst snd] in *.
  - destruct Ho as (Hc & Hd & Hs).
    rewrite finish_unfold, Hd. cbn [Diagnostics w1]. rewrite Hne. cbv zeta. cbn [fst snd].
    by apply sent_done.
  - destruct Ho as (n & c & s & e & Hn & Hc & Hd & Hs).
    eapply sent_failed; eauto.
    rewrite Hd. by apply AddError_no_error.
  - destruct Ho as (n & s & Hn & Hc & Hd & Hs).
    eapply sent_panicked; eauto.
Qed.

Lemma handle_sent op r p srv ds st :
  if diag.HasError (diag.Append ds (Get p).1)
  then handle Value_String op r p srv (start ds st)
       = (start (diag.Append ds (Get p).1) st, Return)
  else sent Value_String (script Value_String op r (Get p).2) (Get p).2
         (start (diag.Append ds (Get p).1) st)
         (handle Value_String op r p srv (start ds st)).1
         (handle Value_String op r p srv (start ds st)).2.
Proof.
  rewrite handle_send. destruct (Get p) as [diags plan]. apply send_sent.
Qed.

(** *** The calls of a script *)

(** Membership in a script, split into its steps. *)
Ltac script_cases Hin :=
  unfold script, prelude, session_prelude, connect, secure, mail_from, data, rcpt in Hin;
  repeat match type of Hin with
         | context [match ?a with Some _ => _ | None => _ end] => destruct a
         | context [match ?op with OpCreate => _ | OpUpdate => _ end] => destruct op
         end;
  repeat first
    [ apply elem_of_app in Hin as [Hin|Hin]
    | apply elem_of_cons in Hin as [Hin|Hin]
    | apply elem_of_nil in Hin
    | apply list_elem_of_fmap in Hin as (? & Hin & ?) ];
  simplify_eq; try done.

Lemma script_Mail op r (plan : model) a s :
  (smtp.Mail a, s) ∈ script Value_String op r plan → a = sender r plan.
Proof. intros Hin. script_cases Hin; done. Qed.

Lemma script_Write op r (plan : model) m s :
  (smtp.Write m, s) ∈ script Value_String op r plan → m = message Value_String plan.
Proof. intros Hin. script_cases Hin; done. Qed.

Lemma script_Rcpt op r (plan : model) a s :
  (smtp.Rcpt a, s) ∈ script Value_String op r plan →
  ∃ v, v ∈ recipients plan ∧ a = Value_String v.
Proof. intros Hin. script_cases Hin; naive_solver. Qed.

Lemma prelude_calls op r (plan : model) :
  Forall (λ cs, is_rcpt cs.1 = false ∧ is_data cs.1 = false) (prelude op r plan).
Proof.
  unfold prelude, session_prelude, connect, secure, mail_from.
  destruct op; [destruct (auth (client_of r))|]; repeat constructor.
Qed.

(** The calls a handler made are calls of its script. *)
Lemma handle_calls_script op r p srv ds st c rep :
  (c, rep) ∈ calls (handle Value_String op r p srv (start ds st)).1 →
  ∃ s, (c, s) ∈ script Value_String op r (Get p).2.
Proof.
  pose proof (handle_sent op r p srv ds st) as Hs.
  destruct (diag.HasError _).
  { rewrite Hs. intros Hin. by apply elem_of_nil in Hin. }
  destruct Hs as [Hc _ _ _|n c' s e Hn Hc _ _ _|n s Hn Hc _ _ _];
    rewrite Hc; cbn [start calls app]; intros Hin.
  - apply list_elem_of_fmap in Hin as ([c' s] & [= -> _] & Hin). eauto.
  - apply elem_of_app in Hin as [Hin|Hin].
    + apply list_elem_of_fmap in Hin as ([c'' s'] & [= -> _] & Hin).
      exists s'. by eapply subseteq_take.
    + apply list_elem_of_singleton in Hin as [= -> _].
      exists s. by eapply list_elem_of_lookup_2.
  - apply elem_of_app in Hin as [Hin|Hin].
    + apply list_elem_of_fmap in Hin as ([c'' s'] & [= -> _] & Hin).
      exists s'. by eapply subseteq_take.
    + apply list_elem_of_singleton in Hin as [= -> _].
      exists s. by eapply list_elem_of_lookup_2.
Qed.

(** The handlers write the message of the plan. *)
Lemma handle_written op r p srv ds st m rep :
  (smtp.Write m, rep) ∈ calls (handle Value_String op r p srv (start ds st)).1 →
  m = message Value_String (Get p).2.
Proof.
  intros Hin. apply handle_calls_script in Hin as [s Hin].
  by eapply script_Write.
Qed.

Lemma written_done_script op r (plan : model) :
  written (done <$> script Value_String op r plan) = [message Value_String plan].
Proof.
  unfold script, written. rewrite !fmap_app, !omap_app.
  assert (omap (λ ev : smtp.Event, if ev.1 is smtp.Write m then Some m else None)
            (done <$> (rcpt Value_String <$> recipients plan)) = []) as ->.
  { induction (recipients plan) as [|v R IH]; [done|exact IH]. }
  unfold prelude, session_prelude.
  destruct op; [destruct (auth (client_of r))|]; reflexivity.
Qed.

(** *** The effective sender *)

(** C9. The sender of every MAIL FROM that Create or Update issues is the
    from of the plan when that is not empty, and the configured username
    otherwise. *)
Theorem mail_from_effective_sender op r p srv ds st a rep :
  (smtp.Mail a, rep) ∈ calls (handle Value_String op r p srv (start ds st)).1 →
  a = if decide (basetypes.ValueString (From (Get p).2) = "")
      then username (client_of r)
      else basetypes.ValueString (From (Get p).2).
Proof.
  intros Hin. apply handle_calls_script in Hin as [s Hin].
  by apply script_Mail in Hin.
Qed.

(** *** Failures *)

(** C10. When a call of Create or Update fails (the dial, the upgrade to TLS,
    the authentication, MAIL FROM, a RCPT TO, the opening of the data phase,
    the write or the close), the handler returns with that error as its one
    new diagnostic, the failed call is its last, and the state of the
    response is what it was. Either the handler reaches its end, with every
    call of its script done and the state set to the plan with its
    identifier, or it does not and leaves the state as it was. *)
Theorem failure_leaves_state op r p srv ds st :
  let out := handle Value_String op r p srv (start ds st) in
  let plan := (Get p).2 in
  (∀ c e, (c, smtp.Failed e) ∈ calls out.1 →
     out.2 = Return
     ∧ State out.1 = st
     ∧ last (calls out.1) = Some (c, smtp.Failed e)
     ∧ ∃ s, (c, s) ∈ script Value_String op r plan
         ∧ Diagnostics out.1
           = diag.Append ds (Get p).1 ++ [diag.NewErrorDiagnostic s e])
  ∧ (out.2 = Next ()
       ∧ calls out.1 = done <$> script Value_String op r plan
       ∧ State out.1
         = Some (set_ID plan (basetypes.NewStringValue
                                (fmt.Sprintf_x (md5.Sum (message Value_String plan)))))
     ∨ out.2 ≠ Next () ∧ State out.1 = st).
Proof.
  intros out plan. subst out plan.
  pose proof (handle_sent op r p srv ds st) as Hs.
  destruct (diag.HasError _).
  { rewrite Hs. split; [|by right].
    intros c e Hin. by apply elem_of_nil in Hin. }
  destruct Hs as [Hc Hd Hst Hf|n c' s e' Hn Hc Hd Hst Hf|n s Hn Hc Hd Hst Hf];
    rewrite Hc, Hst, Hf; cbn [start calls Diagnostics State app] in *.
  - split; [|by left].
    intros c e Hin. by apply list_elem_of_fmap in Hin as ([c' s] & [=] & _).
  - split; [|by right].
    intros c e Hin. apply elem_of_app in Hin as [Hin|Hin].
    { by apply list_elem_of_fmap in Hin as ([c'' s'] & [=] & _). }
    apply list_elem_of_singleton in Hin as [= -> ->].
    split_and!; [done|done|apply last_snoc|].
    exists s. split; [by eapply list_elem_of_lookup_2|done].
  - split; [|by right].
    intros c e Hin. apply elem_of_app in Hin as [Hin|Hin].
    { by apply list_elem_of_fmap in Hin as ([c'' s'] & [=] & _). }
    by apply list_elem_of_singleton in Hin as [=].
Qed.

(** *** The identifier *)

(** C4. When Create or Update reaches its end, the identifier of the state it
    sets is the lowercase hexadecimal form, 32 digits, of the 16 bytes of the
    MD5 digest of the message it wrote; it is a function of those bytes, so
    another send that reaches its end with the same message sets the same
    identifier. *)
Theorem identifier_of_message op r p srv ds st :
  (handle Value_String op r p srv (start ds st)).2 = Next () →
  let out := handle Value_String op r p srv (start ds st) in
  let msg := message Value_String (Get p).2 in
  written (calls out.1) = [msg]
  ∧ ID <$> State out.1 = Some (basetypes.NewStringValue (fmt.Sprintf_x (md5.Sum msg)))
  ∧ length (md5.Sum msg) = 16%nat
  ∧ String.length (fmt.Sprintf_x (md5.Sum msg)) = 32%nat
  ∧ Forall (λ c, is_lower_hex c = true)
      (String.list_ascii_of_string (fmt.Sprintf_x (md5.Sum msg)))
  ∧ ∀ op' r' p' srv' ds' st',
      (handle Value_String op' r' p' srv' (start ds' st')).2 = Next () →
      message Value_String (Get p').2 = msg →
      ID <$> State (handle Value_String op' r' p' srv' (start ds' st')).1
      = ID <$> State out.1.
Proof.
  assert (∀ op r p srv ds st,
    (handle Value_String op r p srv (start ds st)).2 = Next () →
    calls (handle Value_String op r p srv (start ds st)).1
      = done <$> script Value_String op r (Get p).2
    ∧ State (handle Value_String op r p srv (start ds st)).1
      = Some (sent_state Value_String (Get p).2)) as Hend.
  { clear. intros op r p srv ds st Hnext.
    pose proof (handle_sent op r p srv ds st) as Hs.
    destruct (diag.HasError _); [by rewrite Hs in Hnext|].
    destruct Hs as [Hc _ Hst _|? ? ? ? _ _ _ _ Hf|? ? _ _ _ _ Hf]; [done|congruence..]. }
  intros Hnext out msg. subst out msg.
  destruct (Hend _ _ _ _ _ _ Hnext) as [Hc Hst]. rewrite Hc, Hst.
  split_and!.
  - apply written_done_script.
  - done.
  - apply length_Sum.
  - apply identifier_form.
  - apply identifier_form.
  - intros op' r' p' srv' ds' st' Hnext' Hmsg.
    destruct (Hend _ _ _ _ _ _ Hnext') as [_ ->].
    simpl. unfold sent_state. simpl. by rewrite Hmsg.
Qed.

(** *** The message *)

(** C8. Create and Update write the header block of to, cc and subject, the
    MIME block of render_html, an empty line, the body and a line end. With
    another render_html and the rest of the plan as it is, the header block
    and the body are the same bytes and only the MIME block differs: it is
    the two MIME lines and an empty line for true, and empty for false. *)
Theorem render_html_changes_mime_block_only op r diags (plan : model) flag
    srv srv' ds ds' st st' m m' rep rep' :
  (smtp.Write m, rep)
    ∈ calls (handle Value_String op r {| Get := (diags, plan) |} srv (start ds st)).1 →
  (smtp.Write m', rep')
    ∈ calls (handle Value_String op r {| Get := (diags, set_RenderHtml plan flag) |}
               srv' (start ds' st')).1 →
  let header := headerBlock (Value_String <$> basetypes.Elements (To plan))
                  (Value_String <$> basetypes.Elements (Cc plan))
                  (basetypes.ValueString (Subject plan)) in
  let body := CRLF +:+ basetypes.ValueString (Body plan) +:+ CRLF in
  m = header +:+ mimeBlock (basetypes.ValueBool (RenderHtml plan)) +:+ body
  ∧ m' = header +:+ mimeBlock (basetypes.ValueBool flag) +:+ body
  ∧ mimeBlock true
    = "MIME-version: 1.0;" +:+ NL +:+ "Content-Type: text/html; charset="
        +:+ String DQUOTE "UTF-8" +:+ String DQUOTE ";" +:+ NL +:+ NL
  ∧ mimeBlock false = "".
Proof.
  intros Hm Hm'. apply handle_written in Hm, Hm'. subst m m'. done.
Qed.

(** C5, as the code has it. The message Create and Update write is the same
    whatever the bcc of the plan is, and its header block is made of to, cc
    and subject alone; every bcc value is one of the recipients, and a send
    that reaches its end has issued a RCPT TO for it that was accepted. *)
Theorem bcc_in_envelope_only op r diags (plan : model) bcc srv srv' ds ds' st st' :
  let out := handle Value_String op r {| Get := (diags, plan) |} srv (start ds st) in
  let out' := handle Value_String op r {| Get := (diags, set_Bcc plan bcc) |}
                srv' (start ds' st') in
  (∀ m rep m' rep',
     (smtp.Write m, rep) ∈ calls out.1 → (smtp.Write m', rep') ∈ calls out'.1 →
     m' = m
     ∧ m = headerBlock (Value_String <$> basetypes.Elements (To plan))
             (Value_String <$> basetypes.Elements (Cc plan))
             (basetypes.ValueString (Subject plan))
           +:+ mimeBlock (basetypes.ValueBool (RenderHtml plan)) +:+ CRLF
           +:+ basetypes.ValueString (Body plan) +:+ CRLF)
  ∧ (∀ b, b ∈ basetypes.Elements (Bcc plan) →
       b ∈ uniqueAttrValue (basetypes.Elements (To plan) ++ basetypes.Elements (Cc plan)
                              ++ basetypes.Elements (Bcc plan)))
  ∧ (out.2 = Next () →
     ∀ b, b ∈ basetypes.Elements (Bcc plan) →
       (smtp.Rcpt (Value_String b), smtp.Done) ∈ calls out.1).
Proof.
  intros out out'. subst out out'.
  assert (∀ b, b ∈ basetypes.Elements (Bcc plan) → b ∈ recipients plan) as Hbcc.
  { intros b Hb. unfold recipients.
    rewrite uniqueAttrValue_unseen, elem_of_unseen. set_solver. }
  split_and!.
  - intros m rep m' rep' Hm Hm'. apply handle_written in Hm, Hm'. by subst m m'.
  - exact Hbcc.
  - intros Hnext b Hb.
    pose proof (handle_sent op r {| Get := (diags, plan) |} srv ds st) as Hs.
    destruct (diag.HasError _); [by rewrite Hs in Hnext|].
    destruct Hs as [Hc _ _ _|? ? ? ? _ _ _ _ Hf|? ? _ _ _ _ Hf]; [|congruence..].
    rewrite Hc. cbn [start calls app Get snd]. unfold script.
    rewrite !fmap_app, !elem_of_app. right; left.
    apply list_elem_of_fmap. exists (rcpt Value_String b). split; [done|].
    apply list_elem_of_fmap. exists b. auto.
Qed.

(** *** The recipients *)

Lemma rcpt_events_app (l1 l2 : list (smtp.Call * smtp.Reply)) :
  rcpt_events (l1 ++ l2) = rcpt_events l1 ++ rcpt_events l2.
Proof. apply omap_app. Qed.

Lemma rcpt_events_done (l : list (smtp.Call * string)) :
  Forall (λ x, x.2 = smtp.Done) (rcpt_events (done <$> l)).
Proof.
  induction l as [|[c s] l IH]; [constructor|].
  destruct c; try exact IH. by constructor.
Qed.

Lemma rcpt_events_no_rcpt (l : list (smtp.Call * string)) :
  Forall (λ cs, is_rcpt cs.1 = false) l → rcpt_events (done <$> l) = [].
Proof.
  induction 1 as [|[c s] l Hc _ IH]; [done|].
  destruct c; try exact IH. done.
Qed.

Lemma rcpt_events_rcpts (R : list Value) :
  rcpt_events (done <$> (rcpt Value_String <$> R))
  = (λ v, (Value_String v, smtp.Done)) <$> R.
Proof.
  induction R as [|v R IH]; [done|].
  change (rcpt_events (done <$> (rcpt Value_String <$> v :: R)))
    with ((Value_String v, smtp.Done) :: rcpt_events (done <$> (rcpt Value_String <$> R))).
  by rewrite IH.
Qed.

(** A failed RCPT among the events of done calls and one more call is that
    last call. *)
Lemma rcpt_events_failed (l : list (smtp.Call * string)) c rep k a e :
  rcpt_events ((done <$> l) ++ [(c, rep)]) !! k = Some (a, smtp.Failed e) →
  c = smtp.Rcpt a ∧ rep = smtp.Failed e ∧ k = length (rcpt_events (done <$> l)).
Proof.
  unfold rcpt_events at 1. rewrite omap_app. fold (rcpt_events (done <$> l)).
  intros [Hk|[Hlen Hk]]%lookup_app_Some.
  - pose proof (rcpt_events_done l) as Hd.
    rewrite Forall_lookup in Hd. by apply Hd in Hk.
  - destruct c; try done. simpl in Hk.
    destruct (k - length (rcpt_events (done <$> l)))%nat eqn:Ek; [|done].
    simpl in Hk. injection Hk as -> ->. split_and!; [done..|lia].
Qed.

(** Where a RCPT of a script stands. *)
Lemma script_rcpt_position op r (plan : model) n a s :
  script Value_String op r plan !! n = Some (smtp.Rcpt a, s) →
  ∃ m v, recipients plan !! m = Some v
    ∧ a = Value_String v
    ∧ s = "Error setting recipient address:"
    ∧ take n (script Value_String op r plan)
      = prelude op r plan ++ (rcpt Value_String <$> take m (recipients plan)).
Proof.
  unfold script. pose proof (prelude_calls op r plan) as HP.
  intros [Hn|[HlenP [Hn|[HlenR Hn]]%lookup_app_Some]]%lookup_app_Some.
  - rewrite Forall_lookup in HP. by destruct (HP _ _ Hn).
  - rewrite list_lookup_fmap in Hn.
    destruct (recipients plan !! (n - length (prelude op r plan))%nat) as [v|] eqn:Ev; [|done].
    injection Hn as <- <-. exists (n - length (prelude op r plan))%nat, v.
    split_and!; [done..|].
    rewrite take_app_ge by done. f_equal.
    apply lookup_lt_Some in Ev.
    rewrite take_app_le by (rewrite length_fmap; lia).
    by rewrite fmap_take.
  - unfold data in Hn.
    by destruct (_ - _ - _)%nat as [|[|[|j]]].
Qed.

(** C6. RCPT TO is issued for the recipients in their order, and the first
    one that fails ends the send. When the RCPT TO at index [k] (from 0) of
    a run of Create or Update failed, it was for the recipient at index [k];
    the RCPT TO calls of the run are those of the [k] recipients before it,
    all accepted, and the failed one; no call of the data phase was made; the
    failed call is the last one; the handler returned with the recipient
    error, and the state is as it was. *)
Theorem first_failed_recipient_ends_send op r p srv ds st k a e :
  rcpt_events (calls (handle Value_String op r p srv (start ds st)).1) !! k
    = Some (a, smtp.Failed e) →
  let out := handle Value_String op r p srv (start ds st) in
  let plan := (Get p).2 in
  let receivers :=
    uniqueAttrValue (basetypes.Elements (To plan) ++ basetypes.Elements (Cc plan)
                       ++ basetypes.Elements (Bcc plan)) in
  (∃ v, receivers !! k = Some v ∧ a = Value_String v)
  ∧ rcpt_events (calls out.1)
    = ((λ v, (Value_String v, smtp.Done)) <$> take k receivers) ++ [(a, smtp.Failed e)]
  ∧ Forall (λ ev : smtp.Event, is_data ev.1 = false) (calls out.1)
  ∧ last (calls out.1) = Some (smtp.Rcpt a, smtp.Failed e)
  ∧ out.2 = Return
  ∧ Diagnostics out.1
    = diag.Append ds (Get p).1
        ++ [diag.NewErrorDiagnostic "Error setting recipient address:" e]
  ∧ State out.1 = st.
Proof.
  intros Hk out plan receivers. subst out plan receivers. revert Hk.
  pose proof (handle_sent op r p srv ds st) as Hs.
  destruct (diag.HasError _); [by rewrite Hs|].
  destruct Hs as [Hc Hd Hst Hf|n c s e' Hn Hc Hd Hst Hf|n s Hn Hc Hd Hst Hf];
    rewrite Hc, Hd, Hst, Hf; cbn [start calls Diagnostics State app]; intros Hk.
  - pose proof (rcpt_events_done (script Value_String op r (Get p).2)) as Hall.
    rewrite Forall_lookup in Hall. by apply Hall in Hk.
  - apply rcpt_events_failed in Hk as (-> & [= ->] & ->).
    apply script_rcpt_position in Hn as (m & v & Hv & -> & -> & ->).
    pose proof (prelude_calls op r (Get p).2) as HP.
    assert (rcpt_events (done <$> prelude op r (Get p).2
                           ++ (rcpt Value_String <$> take m (recipients (Get p).2)))
            = (λ v, (Value_String v, smtp.Done)) <$> take m (recipients (Get p).2)) as Hev.
    { unfold rcpt_events. rewrite fmap_app, omap_app.
      fold (rcpt_events (done <$> prelude op r (Get p).2)).
      fold (rcpt_events (done <$> (rcpt Value_String <$> take m (recipients (Get p).2)))).
      rewrite rcpt_events_rcpts, rcpt_events_no_rcpt; [done|].
      eapply Forall_impl; [exact HP|]. by intros ? []. }
    assert (length (take m (recipients (Get p).2)) = m) as Hm.
    { apply length_take_le. apply lookup_lt_Some in Hv. lia. }
    rewrite Hev, length_fmap, Hm.
    split_and!; [by exists v| |  |apply last_snoc|done..].
    + unfold rcpt_events. rewrite omap_app.
      fold (rcpt_events (done <$> prelude op r (Get p).2
                           ++ (rcpt Value_String <$> take m (recipients (Get p).2)))).
      by rewrite Hev.
    + rewrite Forall_app, fmap_app, Forall_app, !Forall_fmap. split_and!.
      * eapply Forall_impl; [exact HP|]. by intros ? [].
      * by apply Forall_forall.
      * by repeat constructor.
  - by apply rcpt_events_failed in Hk as (? & ? & _).
Qed.

Lemma rcpt_events_take_script op r (plan : model) n :
  rcpt_events (done <$> take n (script Value_String op r plan))
  = (λ v, (Value_String v, smtp.Done))
      <$> take (n - length (prelude op r plan)) (recipients plan).
Proof.
  unfold script. rewrite !take_app, !fmap_app.
  unfold rcpt_events. rewrite !omap_app.
  fold (rcpt_events (done <$> take n (prelude op r plan))).
  rewrite rcpt_events_no_rcpt.
  2: { apply Forall_take. eapply Forall_impl; [apply prelude_calls|]. by intros ? []. }
  rewrite <- fmap_take.
  fold (rcpt_events (done <$> (rcpt Value_String
          <$> take (n - length (prelude op r plan)) (recipients plan)))).
  rewrite rcpt_events_rcpts.
  match goal with |- context [omap ?f (done <$> take ?k (data Value_String plan))] =>
    fold (rcpt_events (done <$> take k (data Value_String plan)));
    rewrite (rcpt_events_no_rcpt (take k (data Value_String plan)))
  end.
  - by rewrite app_nil_r.
  - apply Forall_take. unfold data. by repeat constructor.
Qed.

(** In every run the RCPT TO calls are for the first recipients, in their
    order. *)
Lemma rcpt_calls_in_order op r p srv ds st :
  (rcpt_events (calls (handle Value_String op r p srv (start ds st)).1)).*1
    `prefix_of` (Value_String <$> recipients (Get p).2).
Proof.
  assert (∀ k, ((λ v, (Value_String v, smtp.Done)) <$> take k (recipients (Get p).2)).*1
               `prefix_of` (Value_String <$> recipients (Get p).2)) as Htake.
  { intros k. exists (Value_String <$> drop k (recipients (Get p).2)).
    rewrite <- list_fmap_compose, <- fmap_app, take_drop. done. }
  assert (∀ n c rep, is_rcpt c = false →
            (rcpt_events ((done <$> take n (script Value_String op r (Get p).2))
                            ++ [(c, rep)])).*1
            `prefix_of` (Value_String <$> recipients (Get p).2)) as Hother.
  { intros n c rep Hc. unfold rcpt_events. rewrite omap_app.
    fold (rcpt_events (done <$> take n (script Value_String op r (Get p).2))).
    rewrite rcpt_events_take_script.
    replace (omap _ [(c, rep)]) with (@nil (string * smtp.Reply)) by by destruct c.
    rewrite app_nil_r. apply Htake. }
  pose proof (handle_sent op r p srv ds st) as Hs.
  destruct (diag.HasError _); [rewrite Hs; apply prefix_nil|].
  destruct Hs as [Hc _ _ _|n c s e Hn Hc _ _ _|n s Hn Hc _ _ _];
    rewrite Hc; cbn [start calls app].
  - rewrite <- (firstn_all (script Value_String op r (Get p).2)).
    rewrite rcpt_events_take_script. apply Htake.
  - destruct (is_rcpt c) eqn:Ec; [|by apply Hother].
    destruct c; try done.
    apply script_rcpt_position in Hn as (m & v & Hv & -> & -> & Htk).
    rewrite Htk, rcpt_events_app, (fmap_app done), rcpt_events_app.
    rewrite rcpt_events_rcpts, rcpt_events_no_rcpt.
    2: { eapply Forall_impl; [apply prelude_calls|]. by intros ? []. }
    change (rcpt_events [(smtp.Rcpt (Value_String v), smtp.Failed e)])
      with [(Value_String v, smtp.Failed e)].
    cbn [app]. rewrite fmap_app, <- list_fmap_compose.
    exists (Value_String <$> drop (S m) (recipients (Get p).2)).
    rewrite <- (take_drop (S m) (recipients (Get p).2)) at 1.
    by rewrite (take_S_r _ _ _ Hv), !fmap_app.
  - by apply Hother.
Qed.

(** *** Credentials, and Update against Create *)

Lemma steps_cons cs l srv (w : world) :
  steps (cs :: l) srv w
  = match step cs srv w with
    | (w', Next _) => steps l srv w'
    | (w', Return) => (w', Return)
    | (w', Panic) => (w', Panic)
    end.
Proof. reflexivity. Qed.

(** With credentials Update does what Create does. *)
Lemma Update_with_credentials_is_Create a h u pt p srv (w : world) :
  let r := {| client_of := {| auth := Some a; host := h; username := u; port := pt |} |} in
  handle Value_String OpUpdate r p srv w = handle Value_String OpCreate r p srv w.
Proof. intros r. by rewrite !handle_send. Qed.

(** Without credentials Create makes no call of StartTLS or Auth. *)
Lemma Create_makes_no_secure_call h u pt p srv ds st :
  let r := {| client_of := {| auth := None; host := h; username := u; port := pt |} |} in
  Forall (λ ev : smtp.Event, is_secure ev.1 = false)
    (calls (handle Value_String OpCreate r p srv (start ds st)).1).
Proof.
  intros r. apply Forall_forall. intros [c rep] Hin.
  apply handle_calls_script in Hin as [s Hin].
  unfold script, prelude, session_prelude, connect, mail_from, data in Hin. simpl in Hin.
  repeat first
    [ apply elem_of_cons in Hin as [Hin|Hin]
    | apply elem_of_app in Hin as [Hin|Hin]
    | apply elem_of_nil in Hin
    | apply list_elem_of_fmap in Hin as (? & Hin & ?) ];
    try done; unfold rcpt in *; by simplify_eq.
Qed.

(** Without credentials Update stops at the dial, or calls StartTLS and stops
    there, or calls Auth on nil and panics: it issues no MAIL FROM. *)
Lemma Update_without_credentials h u pt p srv ds st :
  let r := {| client_of := {| auth := None; host := h; username := u; port := pt |} |} in
  let out := handle Value_String OpUpdate r p srv (start ds st) in
  let dial := smtp.Dial (host_port r) in
  let tls := smtp.StartTLS {| smtp.ServerName := host_port r;
                              smtp.InsecureSkipVerify := true |} in
  calls out.1 = [] ∧ out.2 = Return
  ∨ (∃ e, calls out.1 = [(dial, smtp.Failed e)] ∧ out.2 = Return)
  ∨ (∃ e, calls out.1 = [(dial, smtp.Done); (tls, smtp.Failed e)] ∧ out.2 = Return)
  ∨ calls out.1 = [(dial, smtp.Done); (tls, smtp.Done); (smtp.CallAuth None, smtp.Panicked)]
    ∧ out.2 = Panic.
Proof.
  intros r out dial tls. subst out dial tls.
  rewrite handle_send. destruct (Get p) as [diags plan]. rewrite send_unfold.
  cbv zeta. cbn [start calls Diagnostics State snd].
  destruct (diag.HasError _); [by left|].
  unfold script, prelude, connect, secure. cbn [app auth client_of r].
  rewrite steps_cons.
  match goal with |- context [step (smtp.Dial ?a, ?s) srv ?w] =>
    destruct (step_cases (smtp.Dial a) s srv w) as [E|[[e E]|[? _]]]; [| |done];
      rewrite E
  end.
  2: { right; left. by exists e. }
  rewrite steps_cons.
  match goal with |- context [step (smtp.StartTLS ?c, ?s) srv ?w] =>
    destruct (step_cases (smtp.StartTLS c) s srv w) as [E'|[[e E']|[? _]]]; [| |done];
      rewrite E'
  end.
  2: { right; right; left. by exists e. }
  right; right; right. done.
Qed.

Lemma steps_accepting l (w : world) :
  Forall (λ cs : smtp.Call * string, cs.1 ≠ smtp.CallAuth None) l →
  steps l accepting w
  = ({| calls := calls w ++ (done <$> l); Diagnostics := Diagnostics w;
        State := State w |}, Next ()).
Proof.
  intros Hl. revert w. induction Hl as [|[c s] l Hc _ IH]; intros w.
  - simpl. rewrite app_nil_r. by destruct w.
  - rewrite steps_cons.
    assert (step (c, s) accepting w
            = ({| calls := calls w ++ [(c, smtp.Done)]; Diagnostics := Diagnostics w;
                  State := State w |}, Next ())) as ->.
    { by destruct c as [| |[a|]| | | | |]. }
    rewrite IH. cbn [calls Diagnostics State]. by rewrite <- app_assoc.
Qed.

(** On a server that accepts every call, Create on a plan decoded without
    error goes through its whole script, sets the state and reaches its
    end. *)
Lemma Create_on_accepting_server r p ds st :
  diag.HasError (diag.Append ds (Get p).1) = false →
  handle Value_String OpCreate r p accepting (start ds st)
  = ({| calls := done <$> script Value_String OpCreate r (Get p).2;
        Diagnostics := diag.Append ds (Get p).1;
        State := Some (sent_state Value_String (Get p).2) |}, Next ()).
Proof.
  intros Hne. rewrite handle_send. destruct (Get p) as [diags plan].
  rewrite send_unfold. cbv zeta. cbn [start calls Diagnostics State fst snd] in *.
  rewrite Hne, steps_accepting.
  - rewrite finish_unfold. cbn [calls Diagnostics State app]. by rewrite Hne.
  - unfold script, prelude, session_prelude, connect, secure, mail_from, data.
    rewrite !Forall_app, Forall_fmap. split_and!.
    + by repeat constructor.
    + destruct (auth (client_of r)); by repeat constructor.
    + by repeat constructor.
    + by apply Forall_forall.
    + by repeat constructor.
Qed.

(** Read and Delete do nothing. *)
Lemma Read_Delete_nothing r rreq dreq srv (w : world) :
  Read r rreq srv w = (w, Next ()) ∧ Delete r dreq srv w = (w, Next ()).
Proof. done. Qed.

(** *** The order of the calls *)

(** The calls of a run are the first [n] calls of the script, all done, and
    at most one more, call [n] of the script, that is not done. *)
Lemma handle_calls_shape op r p srv ds st :
  ∃ n tail,
    calls (handle Value_String op r p srv (start ds st)).1
    = (done <$> take n (script Value_String op r (Get p).2)) ++ tail
    ∧ (n ≤ length (script Value_String op r (Get p).2))%nat
    ∧ (tail = []
       ∨ ∃ c s rep, tail = [(c, rep)] ∧ rep ≠ smtp.Done
           ∧ script Value_String op r (Get p).2 !! n = Some (c, s)).
Proof.
  pose proof (handle_sent op r p srv ds st) as Hs.
  destruct (diag.HasError _).
  { rewrite Hs. exists 0%nat, []. split_and!; [done|lia|by left]. }
  destruct Hs as [Hc _ _ _|n c s e Hn Hc _ _ _|n s Hn Hc _ _ _];
    rewrite Hc; cbn [start calls app].
  - exists (length (script Value_String op r (Get p).2)), [].
    rewrite firstn_all, app_nil_r. split_and!; [done|lia|by left].
  - exists n, [(c, smtp.Failed e)]. split_and!; [done| |].
    + apply lookup_lt_Some in Hn. lia.
    + right. by exists c, s, (smtp.Failed e).
  - exists n, [(smtp.CallAuth None, smtp.Panicked)]. split_and!; [done| |].
    + apply lookup_lt_Some in Hn. lia.
    + right. by exists (smtp.CallAuth None), s, smtp.Panicked.
Qed.

Lemma handle_calls_lookup op r p srv ds st i c rep :
  calls (handle Value_String op r p srv (start ds st)).1 !! i = Some (c, rep) →
  (∃ s, script Value_String op r (Get p).2 !! i = Some (c, s))
  ∧ (∀ j cs, (j < i)%nat → script Value_String op r (Get p).2 !! j = Some cs →
       calls (handle Value_String op r p srv (start ds st)).1 !! j = Some (done cs))
  ∧ (rep ≠ smtp.Done →
       length (calls (handle Value_String op r p srv (start ds st)).1) = S i).
Proof.
  destruct (handle_calls_shape op r p srv ds st) as (n & tail & -> & Hn & Htail).
  set (l := script Value_String op r (Get p).2) in *.
  assert (∀ j cs, (j < n)%nat → l !! j = Some cs →
            ((done <$> take n l) ++ tail) !! j = Some (done cs)) as Hdone.
  { intros j cs Hj Hcs. apply lookup_app_l_Some.
    rewrite list_lookup_fmap, (proj2 (lookup_take_Some l n j cs)); done. }
  intros [Hi|[Hge Hi]]%lookup_app_Some.
  - rewrite list_lookup_fmap in Hi.
    destruct (take n l !! i) as [[c' s]|] eqn:Ei; [|done].
    injection Hi as -> <-. apply lookup_take_Some in Ei as [Ei Hin].
    split_and!; [by exists s| |done].
    intros j cs Hj Hcs. apply Hdone; [lia|done].
  - rewrite length_fmap, length_take in Hge, Hi.
    rewrite Nat.min_l in Hge, Hi by done.
    destruct Htail as [->|(c' & s & rep' & -> & Hrep & Hs)]; [done|].
    destruct (i - n)%nat eqn:Ein; [|done]. injection Hi as -> ->.
    assert (i = n) as -> by lia.
    split_and!; [by exists s| |].
    + intros j cs Hj Hcs. by apply Hdone.
    + intros _. rewrite length_app, length_fmap, length_take, Nat.min_l by done.
      simpl. lia.
Qed.

(** The calls of a run follow the script of its operation: call [i] of the
    run is call [i] of the script, every call before it is done, and a call
    that is not done is the last one. *)
Theorem calls_follow_script op r p srv ds st i c rep :
  calls (handle Value_String op r p srv (start ds st)).1 !! i = Some (c, rep) →
  (∃ s, script Value_String op r (Get p).2 !! i = Some (c, s))
  ∧ (∀ j, (j < i)%nat →
       ∃ cs, script Value_String op r (Get p).2 !! j = Some cs
         ∧ calls (handle Value_String op r p srv (start ds st)).1 !! j
           = Some (cs.1, smtp.Done))
  ∧ (rep ≠ smtp.Done →
       last (calls (handle Value_String op r p srv (start ds st)).1) = Some (c, rep)).
Proof.
  intros Hi. destruct (handle_calls_lookup _ _ _ _ _ _ _ _ _ Hi) as ([s Hs] & Hbefore & Hlast).
  split_and!; [by exists s| |].
  - intros j Hj.
    destruct (script Value_String op r (Get p).2 !! j) as [cs|] eqn:Ej.
    + exists cs. split; [done|]. by apply Hbefore.
    + apply lookup_ge_None in Ej. apply lookup_lt_Some in Hs. lia.
  - intros Hrep. rewrite last_lookup, (Hlast Hrep). done.
Qed.

Lemma script_auth_position op r (plan : model) i a s :
  script Value_String op r plan !! i = Some (smtp.CallAuth a, s) →
  i = 2%nat ∧ a = auth (client_of r)
  ∧ script Value_String op r plan !! 0%nat
    = Some (smtp.Dial (host_port r), "Error connecting to SMTP server:")
  ∧ script Value_String op r plan !! 1%nat
    = Some (smtp.StartTLS {| smtp.ServerName := host_port r;
                             smtp.InsecureSkipVerify := true |},
            "Error upgrading connection to TLS:").
Proof.
  unfold script.
  intros [Hn|[HlenP [Hn|[HlenR Hn]]%lookup_app_Some]]%lookup_app_Some.
  - revert Hn. unfold prelude, session_prelude, connect, secure, mail_from.
    destruct op; [destruct (auth (client_of r)) as [a'|] eqn:Ea|];
      destruct i as [|[|[|[|i]]]]; intros Hn; simplify_eq/=; done.
  - rewrite list_lookup_fmap in Hn.
    by destruct (recipients plan !! _).
  - unfold data in Hn. by destruct (_ - _ - _)%nat as [|[|[|j]]].
Qed.

(** Authentication comes only after the upgrade to TLS succeeded: a run that
    calls Auth has dialled and called StartTLS before, both done; Auth is its
    third call, with the credentials of the client. *)
Theorem auth_only_after_tls op r p srv ds st a rep :
  (smtp.CallAuth a, rep) ∈ calls (handle Value_String op r p srv (start ds st)).1 →
  calls (handle Value_String op r p srv (start ds st)).1 !! 0%nat
    = Some (smtp.Dial (host (client_of r) +:+ ":" +:+ port (client_of r)), smtp.Done)
  ∧ calls (handle Value_String op r p srv (start ds st)).1 !! 1%nat
    = Some (smtp.StartTLS
              {| smtp.ServerName := host (client_of r) +:+ ":" +:+ port (client_of r);
                 smtp.InsecureSkipVerify := true |}, smtp.Done)
  ∧ calls (handle Value_String op r p srv (start ds st)).1 !! 2%nat
    = Some (smtp.CallAuth a, rep)
  ∧ a = auth (client_of r).
Proof.
  intros [i Hi]%list_elem_of_lookup_1.
  destruct (handle_calls_lookup _ _ _ _ _ _ _ _ _ Hi) as ([s Hs] & Hbefore & _).
  apply script_auth_position in Hs as (-> & -> & H0 & H1).
  split_and!; [|  |done..].
  - exact (Hbefore 0%nat _ ltac:(lia) H0).
  - exact (Hbefore 1%nat _ ltac:(lia) H1).
Qed.

Lemma script_data_position op r (plan : model) i c s :
  script Value_String op r plan !! i = Some (c, s) → is_data c = true →
  (length (prelude op r plan) + length (recipients plan) ≤ i)%nat.
Proof.
  unfold script. pose proof (prelude_calls op r plan) as HP.
  intros [Hn|[HlenP [Hn|[HlenR Hn]]%lookup_app_Some]]%lookup_app_Some Hc.
  - rewrite Forall_lookup in HP. destruct (HP _ _ Hn) as [_ Hd]. simpl in Hd. congruence.
  - rewrite list_lookup_fmap in Hn.
    destruct (recipients plan !! _); [|done]. by injection Hn as <- <-.
  - rewrite length_fmap in HlenR. lia.
Qed.

Lemma prelude_ends_with_mail op r (plan : model) :
  ∃ k, prelude op r plan !! k
       = Some (smtp.Mail (sender r plan), "Error setting sender address:")
     ∧ (k < length (prelude op r plan))%nat.
Proof.
  unfold prelude, session_prelude, connect, secure, mail_from.
  destruct op; [destruct (auth (client_of r))|].
  - exists 3%nat. split; [done|simpl; lia].
  - exists 1%nat. split; [done|simpl; lia].
  - exists 3%nat. split; [done|simpl; lia].
Qed.

(** The data phase begins only when the envelope is complete: a run that
    calls Data, Write or Close has issued MAIL FROM the effective sender and
    one RCPT TO for every recipient, in their order, all accepted. *)
Theorem data_only_after_all_recipients op r p srv ds st c rep :
  (c, rep) ∈ calls (handle Value_String op r p srv (start ds st)).1 →
  is_data c = true →
  rcpt_events (calls (handle Value_String op r p srv (start ds st)).1)
  = (λ v, (Value_String v, smtp.Done))
      <$> uniqueAttrValue (basetypes.Elements (To (Get p).2)
                             ++ basetypes.Elements (Cc (Get p).2)
                             ++ basetypes.Elements (Bcc (Get p).2))
  ∧ (smtp.Mail (sender r (Get p).2), smtp.Done)
    ∈ calls (handle Value_String op r p srv (start ds st)).1.
Proof.
  intros [i Hi]%list_elem_of_lookup_1 Hc.
  destruct (handle_calls_lookup _ _ _ _ _ _ _ _ _ Hi) as ([s Hs] & Hbefore & _).
  pose proof (script_data_position _ _ _ _ _ _ Hs Hc) as Hpos.
  split.
  - destruct (handle_calls_shape op r p srv ds st) as (n & tail & E & Hn & Htail).
    rewrite E in Hi |- *.
    assert (i ≤ n)%nat as Hin.
    { apply lookup_lt_Some in Hi.
      rewrite length_app, length_fmap, length_take, Nat.min_l in Hi by done.
      destruct Htail as [->|(? & ? & ? & -> & _)]; simpl in Hi; lia. }
    rewrite rcpt_events_app, rcpt_events_take_script.
    rewrite take_ge by (fold (recipients (Get p).2); lia).
    replace (rcpt_events tail) with (@nil (string * smtp.Reply));
      [by rewrite app_nil_r|].
    destruct Htail as [->|(c' & s' & rep' & -> & _ & Hs')]; [done|].
    unfold script in Hs'. rewrite lookup_app_r in Hs' by lia.
    rewrite lookup_app_r in Hs' by (rewrite length_fmap; lia).
    unfold data in Hs'.
    by destruct (_ - _ - _)%nat as [|[|[|j]]]; simplify_eq/=.
  - destruct (prelude_ends_with_mail op r (Get p).2) as (k & Hk & Hlt).
    apply list_elem_of_lookup. exists k.
    apply (Hbefore k (smtp.Mail (sender r (Get p).2), "Error setting sender address:")
             ltac:(lia)).
    unfold script. by apply lookup_app_l_Some.
Qed.

(** The server the handlers dial is host:port of the client, and every
    upgrade to TLS is asked with that same host:port as server name and with
    the verification of the certificate switched off. *)
Theorem dial_and_tls_configuration op r p srv ds st c rep :
  (c, rep) ∈ calls (handle Value_String op r p srv (start ds st)).1 →
  match c with
  | smtp.Dial addr => addr = host (client_of r) +:+ ":" +:+ port (client_of r)
  | smtp.StartTLS config =>
      smtp.ServerName config = host (client_of r) +:+ ":" +:+ port (client_of r)
      ∧ smtp.InsecureSkipVerify config = true
  | _ => True
  end.
Proof.
  intros Hin. apply handle_calls_script in Hin as [s Hin].
  destruct c; try done; script_cases Hin; done.
Qed.

(** A RCPT TO of a run is for one of the recipients. *)
Lemma handle_rcpt_recipient op r p srv ds st a rep :
  (a, rep) ∈ rcpt_events (calls (handle Value_String op r p srv (start ds st)).1) →
  ∃ v, v ∈ recipients (Get p).2 ∧ a = Value_String v.
Proof.
  unfold rcpt_events. intros ([c rep'] & Hin & Hf)%list_elem_of_omap.
  destruct c; simplify_eq/=.
  apply handle_calls_script in Hin as [s Hin]. by eapply script_Rcpt.
Qed.

Lemma Create_accepting r p ds st :
  diag.HasError (diag.Append ds (Get p).1) = false →
  handle Value_String OpCreate r p accepting (start ds st)
  = ({| calls := done <$> script Value_String OpCreate r (Get p).2;
        Diagnostics := diag.Append ds (Get p).1;
        State := Some (sent_state Value_String (Get p).2) |}, Next ()).
Proof.
  intros Hne. rewrite handle_send. destruct (Get p) as [diags plan].
  rewrite send_unfold. cbv zeta. cbn [start calls Diagnostics State fst snd] in *.
  rewrite Hne, steps_accepting.
  - rewrite finish_unfold. cbn [calls Diagnostics State app]. by rewrite Hne.
  - unfold script, prelude, session_prelude, connect, secure, mail_from, data.
    rewrite !Forall_app, Forall_fmap. split_and!;
      [by repeat constructor|destruct (auth (client_of r)); by repeat constructor
      |by repeat constructor|by apply Forall_forall|by repeat constructor].
Qed.

(** The handlers do not ask for a recipient: when to, cc and bcc are all
    empty no RCPT TO is issued, and Create on a server that accepts every
    call goes from MAIL FROM to the data phase, writes the message and sets
    the state. *)
Theorem no_recipient_still_sends op r p srv ds st :
  basetypes.Elements (To (Get p).2) = [] →
  basetypes.Elements (Cc (Get p).2) = [] →
  basetypes.Elements (Bcc (Get p).2) = [] →
  rcpt_events (calls (handle Value_String op r p srv (start ds st)).1) = []
  ∧ (diag.HasError (diag.Append ds (Get p).1) = false →
     handle Value_String OpCreate r p accepting (start ds st)
     = ({| calls := done <$> (prelude OpCreate r (Get p).2 ++ data Value_String (Get p).2);
           Diagnostics := diag.Append ds (Get p).1;
           State := Some (set_ID (Get p).2
                            (basetypes.NewStringValue
                               (fmt.Sprintf_x (md5.Sum (message Value_String (Get p).2))))) |},
        Next ())).
Proof.
  intros Hto Hcc Hbcc.
  assert (recipients (Get p).2 = []) as HR.
  { unfold recipients. by rewrite Hto, Hcc, Hbcc. }
  split.
  - destruct (rcpt_events _) as [|[a rep] l] eqn:E; [done|].
    assert ((a, rep) ∈ rcpt_events
              (calls (handle Value_String op r p srv (start ds st)).1)) as Hin
      by (rewrite E; left).
    apply handle_rcpt_recipient in Hin as (v & Hv & _).
    rewrite HR in Hv. by apply elem_of_nil in Hv.
  - intros Hne. rewrite (Create_accepting _ _ _ _ Hne).
    unfold script. by rewrite HR.
Qed.

(** *** The diagnostic of a failed call *)

(** A call that fails adds exactly one diagnostic, after those of the plan:
    an error whose summary is the one of the step of the call (the two steps
    of the data phase before the close share theirs) and whose detail is the
    error of the call. No other call of the run failed. *)
Theorem failed_call_summary op r p srv ds st c e :
  (c, smtp.Failed e) ∈ calls (handle Value_String op r p srv (start ds st)).1 →
  let out := handle Value_String op r p srv (start ds st) in
  Diagnostics out.1
  = diag.Append ds (Get p).1
      ++ [diag.NewErrorDiagnostic
            match c with
            | smtp.Dial _ => "Error connecting to SMTP server:"
            | smtp.StartTLS _ => "Error upgrading connection to TLS:"
            | smtp.CallAuth _ => "Error authenticating with SMTP server:"
            | smtp.Mail _ => "Error setting sender address:"
            | smtp.Rcpt _ => "Error setting recipient address:"
            | smtp.Data | smtp.Write _ => "Error setting email message:"
            | smtp.Close => "Error sending email:"
            end e]
  ∧ ∀ c' e', (c', smtp.Failed e') ∈ calls out.1 → c' = c ∧ e' = e.
Proof.
  intros Hin out. subst out.
  pose proof (handle_sent op r p srv ds st) as Hs.
  destruct (diag.HasError _).
  { rewrite Hs in Hin. by apply elem_of_nil in Hin. }
  assert (∀ (l : list (smtp.Call * string)) (x : smtp.Call) e0,
            (x, smtp.Failed e0) ∉ done <$> l) as Hdone.
  { intros l x e0 (? & ? & _)%list_elem_of_fmap. done. }
  destruct Hs as [Hc _ _ _|n c0 s e0 Hn Hc Hd _ _|n s Hn Hc _ _ _];
    rewrite Hc in Hin |- *; cbn [start calls app] in Hin |- *.
  - by apply Hdone in Hin.
  - assert (∀ c' e', (c', smtp.Failed e') ∈ (done <$> take n (script Value_String op r (Get p).2))
                                          ++ [(c0, smtp.Failed e0)] →
                     c' = c0 ∧ e' = e0) as Hlast.
    { intros c' e'. rewrite elem_of_app, list_elem_of_singleton.
      intros [Hin'|Hin']; [by apply Hdone in Hin'|by simplify_eq]. }
    destruct (Hlast _ _ Hin) as [-> ->]. split; [|done].
    rewrite Hd. cbn [start Diagnostics]. f_equal. f_equal. f_equal.
    apply list_elem_of_lookup_2 in Hn. destruct c0; script_cases Hn; done.
  - apply elem_of_app in Hin as [Hin|Hin]; [by apply Hdone in Hin|].
    by apply list_elem_of_singleton in Hin.
Qed.

End properties.

(** ** The provider's Configure *)

(** *** Diagnostics with an attribute path *)

Lemma attr_HasError_app (base l : attrdiag.Diagnostics) :
  attrdiag.HasError (base ++ l) = attrdiag.HasError base || attrdiag.HasError l.
Proof.
  unfold attrdiag.HasError.
  destruct (bool_decide (Exists _ base)) eqn:E1, (bool_decide (Exists _ l)) eqn:E2; simpl;
    [apply bool_decide_eq_true..|apply bool_decide_eq_false];
    rewrite Exists_app;
    try apply bool_decide_eq_true in E1; try apply bool_decide_eq_true in E2;
    try apply bool_decide_eq_false in E1; try apply bool_decide_eq_false in E2; tauto.
Qed.

Lemma attr_error_not_in (base : attrdiag.Diagnostics) p s d :
  attrdiag.HasError base = false → attrdiag.NewAttributeErrorDiagnostic p s d ∉ base.
Proof.
  intros Hb Hin. apply bool_decide_eq_false in Hb. apply Hb.
  apply Exists_exists. by eexists.
Qed.

Lemma attr_Append_prefix (diags new : attrdiag.Diagnostics) :
  diags `prefix_of` attrdiag.Append diags new.
Proof.
  unfold attrdiag.Append. revert diags. induction new as [|d new IH]; intros diags; [done|].
  simpl. destruct (attrdiag.Contains diags d); [done|].
  etrans; [|apply IH]. by apply prefix_app_r.
Qed.

Lemma AddAttributeError_new (l : attrdiag.Diagnostics) p s d :
  attrdiag.NewAttributeErrorDiagnostic p s d ∉ l →
  attrdiag.AddAttributeError l p s d = l ++ [attrdiag.NewAttributeErrorDiagnostic p s d].
Proof.
  intros Hl. unfold attrdiag.AddAttributeError, attrdiag.Append, attrdiag.Contains. simpl.
  by rewrite bool_decide_false.
Qed.

(** Four checks on distinct attributes add their diagnostics in order to a
    collection without error, and leave the data. *)
Lemma four_checks (base : attrdiag.Diagnostics) D R (b1 b2 b3 b4 : bool)
    p1 s1 d1 p2 s2 d2 p3 s3 d3 p4 s4 d4 :
  attrdiag.HasError base = false → NoDup [p1; p2; p3; p4] →
  check b4 p4 s4 d4 (check b3 p3 s3 d3 (check b2 p2 s2 d2 (check b1 p1 s1 d1
    {| provider.Diagnostics := base; provider.DataSourceData := D;
       provider.ResourceData := R |})))
  = {| provider.Diagnostics :=
         base ++ when b1 (attrdiag.NewAttributeErrorDiagnostic p1 s1 d1)
              ++ when b2 (attrdiag.NewAttributeErrorDiagnostic p2 s2 d2)
              ++ when b3 (attrdiag.NewAttributeErrorDiagnostic p3 s3 d3)
              ++ when b4 (attrdiag.NewAttributeErrorDiagnostic p4 s4 d4);
       provider.DataSourceData := D; provider.ResourceData := R |}.
Proof.
  intros Hb Hnd.
  assert (p1 ≠ p2 ∧ p1 ≠ p3 ∧ p1 ≠ p4 ∧ p2 ≠ p3 ∧ p2 ≠ p4 ∧ p3 ≠ p4) as (?&?&?&?&?&?).
  { rewrite !NoDup_cons, !not_elem_of_cons in Hnd. naive_solver. }
  assert (∀ l p s d, attrdiag.NewAttributeErrorDiagnostic p s d ∉ l →
            attrdiag.AddAttributeError (base ++ l) p s d
            = base ++ l ++ [attrdiag.NewAttributeErrorDiagnostic p s d]) as Hadd.
  { intros l p s d Hl. rewrite AddAttributeError_new, <- app_assoc; [done|].
    rewrite elem_of_app. intros [Hin|Hin]; [|done]. by eapply attr_error_not_in. }
  assert (∀ p s d, attrdiag.AddAttributeError base p s d
                   = base ++ [attrdiag.NewAttributeErrorDiagnostic p s d]) as Hadd0.
  { intros p s d. rewrite <- (app_nil_r base) at 1. rewrite Hadd; [done|]. apply not_elem_of_nil. }
  unfold check, provider.AddAttributeError, when, attrdiag.NewAttributeErrorDiagnostic in *.
  destruct b1, b2, b3, b4; cbn [provider.Diagnostics provider.DataSourceData
                                provider.ResourceData app];
    rewrite ?app_nil_r; rewrite ?Hadd0; try done.
  all: repeat (rewrite Hadd; [|clear Hadd Hadd0; set_solver]); by rewrite <- ?app_assoc.
Qed.

Lemma HasError_when4 (b1 b2 b3 b4 : bool) (x1 x2 x3 x4 : attrdiag.Diagnostic) :
  is_error x1 = true → is_error x2 = true → is_error x3 = true → is_error x4 = true →
  attrdiag.HasError (when b1 x1 ++ when b2 x2 ++ when b3 x3 ++ when b4 x4)
  = b1 || b2 || b3 || b4.
Proof.
  unfold is_error. intros E1%bool_decide_eq_true E2%bool_decide_eq_true
    E3%bool_decide_eq_true E4%bool_decide_eq_true.
  unfold attrdiag.HasError.
  destruct b1, b2, b3, b4; cbn [when app orb];
    first [ apply bool_decide_eq_true; rewrite ?Exists_cons; tauto
          | apply bool_decide_eq_false; rewrite Exists_nil; tauto ].
Qed.

(** A decoding with an error ends Configure. *)
Lemma Configure_decoding_error Getenv req resp :
  attrdiag.HasError
    (attrdiag.Append (provider.Diagnostics resp) (provider.Config_Get req).1) = true →
  provider.Configure Getenv req resp
  = provider.Diagnostics_Append resp (provider.Config_Get req).1.
Proof.
  intros Hb. unfold provider.Configure. destruct (provider.Config_Get req) as [diags config].
  cbn [fst provider.Diagnostics_Append provider.Diagnostics] in *. by rewrite Hb.
Qed.

(** *** The outcome of Configure *)

(** The first let of the right-hand side of [H], named [r] or replaced by its
    value. *)
Ltac name_let H r :=
  lazymatch type of H with
  | ?o = (let x := ?a in @?b x) => pose (r := a); change (o = b r) in H; cbv beta in H
  end.

Ltac inline_let H :=
  lazymatch type of H with
  | ?o = (let x := ?a in @?b x) => change (o = b a) in H; cbv beta in H
  end.

Lemma paths_NoDup : NoDup ["host"; "port"; "username"; "password"].
Proof. apply (bool_decide_unpack _). vm_compute. exact I. Qed.

(** Configure after a decoding without error, check by check: the errors it
    adds, by attribute and summary, and what it stores. *)
Lemma Configure_outcome Getenv req resp :
  let config := (provider.Config_Get req).2 in
  let base := attrdiag.Append (provider.Diagnostics resp) (provider.Config_Get req).1 in
  let out := provider.Configure Getenv req resp in
  attrdiag.HasError base = false →
  ∃ added,
    provider.Diagnostics out = base ++ added
    ∧ Forall (λ d, is_error d = true) added
    ∧ labels added = match unknown_values config with
                     | [] => missing_values Getenv config
                     | _ => unknown_values config
                     end
    ∧ match unknown_values config, missing_values Getenv config with
      | [], [] => provider.DataSourceData out = any_client (configured_client Getenv config)
                  ∧ provider.ResourceData out = any_client (configured_client Getenv config)
      | _, _ => provider.DataSourceData out = provider.DataSourceData resp
                ∧ provider.ResourceData out = provider.ResourceData resp
      end.
Proof.
  intros config base out Hb.
  assert (Hout : out = provider.Configure Getenv req resp) by done. clearbody out.
  subst config base. cbv delta [provider.Configure] in Hout. cbv beta in Hout.
  destruct (provider.Config_Get req) as [diags config]. cbn [fst snd] in Hb |- *.
  set (base := attrdiag.Append _ _) in Hb |- *.
  cbv iota in Hout.
  (* the checks for unknown values *)
  name_let Hout r0.
  change (provider.Diagnostics r0) with base in Hout. rewrite Hb in Hout. cbv iota in Hout.
  name_let Hout r1. name_let Hout r2. name_let Hout cfg. name_let Hout r3. name_let Hout r4.
  eassert (E4 : r4 = _).
  { refine (four_checks base _ _ _ _ _ _ _ _ _ _ _ _ _ _ _ _ _ _ Hb _). exact paths_NoDup. }
  clearbody r4. clear r0 r1 r2 r3.
  assert (provider.Host cfg = provider.Host config) as EH
    by (unfold cfg; by destruct (BoolValue_IsUnknown _)).
  assert (provider.Port cfg = provider.Port config) as EP
    by (unfold cfg; by destruct (BoolValue_IsUnknown _)).
  assert (provider.Username cfg = provider.Username config) as EU
    by (unfold cfg; by destruct (BoolValue_IsUnknown _)).
  assert (provider.Password cfg = provider.Password config) as EPw
    by (unfold cfg; by destruct (BoolValue_IsUnknown _)).
  assert (basetypes.ValueBool (provider.Authentication cfg) = credentials_checked config) as EA
    by (unfold cfg, credentials_checked; by destruct config as [? ? [] ? ?]).
  assert (∀ a err, ParseBool (Getenv "SMTP_AUTHENTICATION") = (a, err) →
            (if negb (BoolValue_IsNull (provider.Authentication cfg))
             then credentials_checked config else if err then true else a)
            = authentication_of Getenv config) as EAuth.
  { intros a err E. unfold cfg, credentials_checked, authentication_of. rewrite E.
    by destruct config as [? ? [] ? ?]. }
  rewrite EU, EPw, EA in E4. rewrite EH, EP, EU, EPw, EA in Hout.
  clear EH EP EU EPw EA.
  eassert (attrdiag.HasError (provider.Diagnostics r4) = _) as Herr.
  { rewrite E4. cbn [provider.Diagnostics].
    rewrite attr_HasError_app, Hb, HasError_when4 by done. cbn [orb]. reflexivity. }
  unfold unknown_values.
  destruct (StringValue_IsUnknown (provider.Host config)),
    (StringValue_IsUnknown (provider.Port config)),
    (credentials_checked config && StringValue_IsUnknown (provider.Username config)),
    (credentials_checked config && StringValue_IsUnknown (provider.Password config));
    cbn [orb] in Herr; rewrite Herr in Hout; clear Herr; cbv iota in Hout;
    cbn [when app] in E4 |- *.
  1-15: subst out r4; eexists; split_and!; [reflexivity|by repeat constructor|reflexivity..].
  rewrite app_nil_r in E4. subst r4.
  (* the settings *)
  do 4 inline_let Hout.
  destruct (ParseBool (Getenv "SMTP_AUTHENTICATION")) as [a err] eqn:Eenv.
  cbv beta iota in Hout.
  do 6 inline_let Hout.
  rewrite (EAuth _ _ eq_refl) in Hout. clear EAuth cfg.
  fold (effective (provider.Host config) (Getenv "SMTP_HOST")) in Hout.
  fold (effective (provider.Port config) (Getenv "SMTP_PORT")) in Hout.
  fold (effective (provider.Username config) (Getenv "SMTP_USERNAME")) in Hout.
  fold (effective (provider.Password config) (Getenv "SMTP_PASSWORD")) in Hout.
  (* the checks for missing values *)
  name_let Hout r5. name_let Hout r6. name_let Hout r7. name_let Hout r8.
  eassert (E8 : r8 = _).
  { refine (four_checks base _ _ _ _ _ _ _ _ _ _ _ _ _ _ _ _ _ _ Hb _). exact paths_NoDup. }
  clearbody r8. clear r5 r6 r7.
  eassert (attrdiag.HasError (provider.Diagnostics r8) = _) as Herr.
  { rewrite E8. cbn [provider.Diagnostics].
    rewrite attr_HasError_app, Hb, HasError_when4 by done. cbn [orb]. reflexivity. }
  unfold missing_values.
  destruct (bool_decide (effective (provider.Host config) (Getenv "SMTP_HOST") = "")),
    (bool_decide (effective (provider.Port config) (Getenv "SMTP_PORT") = "")),
    (authentication_of Getenv config
     && bool_decide (effective (provider.Username config) (Getenv "SMTP_USERNAME") = "")),
    (authentication_of Getenv config
     && bool_decide (effective (provider.Password config) (Getenv "SMTP_PASSWORD") = ""));
    cbn [orb] in Herr; rewrite Herr in Hout; clear Herr; cbv iota in Hout;
    cbn [when app] in E8 |- *.
  1-15: subst out r8; eexists; split_and!; [reflexivity|by repeat constructor|reflexivity..].
  rewrite app_nil_r in E8. subst r8. do 3 inline_let Hout. subst out.
  exists []. rewrite app_nil_r. by split_and!.
Qed.

Lemma labels_nil_inv (added : attrdiag.Diagnostics) : labels added = [] → added = [].
Proof. apply fmap_nil_inv. Qed.

Lemma errors_HasError (added : attrdiag.Diagnostics) :
  Forall (λ d, is_error d = true) added →
  attrdiag.HasError added = negb (bool_decide (added = [])).
Proof.
  intros Hall. destruct Hall as [|d added Hd _]; [done|].
  apply bool_decide_eq_true. apply Exists_cons_hd. by apply bool_decide_eq_true in Hd.
Qed.

(** Configure after a decoding without error: it fails, leaving the data, when
    some value is unknown or missing, and stores the client otherwise. *)
Lemma Configure_cases Getenv req resp :
  let config := (provider.Config_Get req).2 in
  let base := attrdiag.Append (provider.Diagnostics resp) (provider.Config_Get req).1 in
  let out := provider.Configure Getenv req resp in
  attrdiag.HasError base = false →
  (unknown_values config = [] ∧ missing_values Getenv config = []
   ∧ provider.Diagnostics out = base
   ∧ provider.DataSourceData out = any_client (configured_client Getenv config)
   ∧ provider.ResourceData out = any_client (configured_client Getenv config))
  ∨ (¬ (unknown_values config = [] ∧ missing_values Getenv config = [])
     ∧ attrdiag.HasError (provider.Diagnostics out) = true
     ∧ provider.DataSourceData out = provider.DataSourceData resp
     ∧ provider.ResourceData out = provider.ResourceData resp).
Proof.
  intros config base out Hb.
  destruct (Configure_outcome Getenv req resp Hb) as (added & Hd & Hall & Hl & Hdata).
  fold config base out in Hd, Hl, Hdata.
  rewrite Hd, attr_HasError_app, Hb, (errors_HasError _ Hall). cbn [orb].
  destruct (unknown_values config) as [|u us].
  - destruct (missing_values Getenv config) as [|m ms].
    + left. apply labels_nil_inv in Hl as ->. rewrite app_nil_r. by destruct Hdata.
    + right. destruct added; [done|]. split_and!; [by intros [_ ?]|done|apply Hdata..].
  - right. destruct added; [done|]. split_and!; [by intros [? _]|done|apply Hdata..].
Qed.

Lemma missing_values_nil Getenv config :
  missing_values Getenv config = [] →
  effective (provider.Host config) (Getenv "SMTP_HOST") ≠ ""
  ∧ effective (provider.Port config) (Getenv "SMTP_PORT") ≠ ""
  ∧ (authentication_of Getenv config = true →
     effective (provider.Username config) (Getenv "SMTP_USERNAME") ≠ ""
     ∧ effective (provider.Password config) (Getenv "SMTP_PASSWORD") ≠ "").
Proof.
  unfold missing_values. destruct (authentication_of Getenv config); cbn [andb];
    repeat case_bool_decide; try done; naive_solver.
Qed.

(** Configure without error in the end: the decoding had none, no value was
    unknown or missing, and the client is stored. *)
Lemma Configure_success Getenv req resp :
  let config := (provider.Config_Get req).2 in
  let base := attrdiag.Append (provider.Diagnostics resp) (provider.Config_Get req).1 in
  let out := provider.Configure Getenv req resp in
  attrdiag.HasError (provider.Diagnostics out) = false →
  attrdiag.HasError base = false
  ∧ unknown_values config = [] ∧ missing_values Getenv config = []
  ∧ provider.Diagnostics out = base
  ∧ provider.DataSourceData out = any_client (configured_client Getenv config)
  ∧ provider.ResourceData out = any_client (configured_client Getenv config).
Proof.
  intros config base out Hok. subst config base out.
  destruct (attrdiag.HasError
              (attrdiag.Append (provider.Diagnostics resp) (provider.Config_Get req).1)) eqn:Hb.
  { rewrite Configure_decoding_error in Hok by done.
    cbn [provider.Diagnostics_Append provider.Diagnostics] in Hok. congruence. }
  destruct (Configure_cases Getenv req resp Hb) as [?|(_ & Herr & _)]; [done|congruence].
Qed.

(** When Configure leaves an error in the response it has stored nothing: the
    data for the data sources and for the resources are as they were, and the
    diagnostics the response held come first, unchanged. *)
Theorem Configure_error_stores_nothing Getenv req resp :
  let out := provider.Configure Getenv req resp in
  attrdiag.HasError (provider.Diagnostics out) = true →
  provider.Diagnostics resp `prefix_of` provider.Diagnostics out
  ∧ provider.DataSourceData out = provider.DataSourceData resp
  ∧ provider.ResourceData out = provider.ResourceData resp.
Proof.
  intros out Herr. subst out.
  destruct (attrdiag.HasError
              (attrdiag.Append (provider.Diagnostics resp) (provider.Config_Get req).1)) eqn:Hb.
  - rewrite Configure_decoding_error by done. split; [|done]. apply attr_Append_prefix.
  - destruct (Configure_cases Getenv req resp Hb) as [(_ & _ & Hd & _)|(_ & _ & HD & HR)].
    + rewrite Hd in Herr. congruence.
    + split; [|done].
      destruct (Configure_outcome Getenv req resp Hb) as (added & -> & _).
      etrans; [apply attr_Append_prefix|]. by apply prefix_app_r.
Qed.

(** When Configure leaves no error it has stored one client for the data
    sources and the resources and added no diagnostic besides those of the
    decoding. The client has a host and a port that are not empty, and either
    no credentials, or plain credentials with an empty identity, the user
    name of the client, a password and the host, the user name and the
    password not empty. *)
Theorem Configure_stores_usable_client Getenv req resp :
  let config := (provider.Config_Get req).2 in
  let out := provider.Configure Getenv req resp in
  let c := configured_client Getenv config in
  attrdiag.HasError (provider.Diagnostics out) = false →
  provider.DataSourceData out = any_client c ∧ provider.ResourceData out = any_client c
  ∧ provider.Diagnostics out
    = attrdiag.Append (provider.Diagnostics resp) (provider.Config_Get req).1
  ∧ host c ≠ "" ∧ port c ≠ ""
  ∧ (auth c = None
     ∨ ∃ password, auth c = Some (smtp.PlainAuth "" (username c) password (host c))
                   ∧ username c ≠ "" ∧ password ≠ "").
Proof.
  intros config out c Hok. subst out c config.
  destruct (Configure_success Getenv req resp Hok) as (_ & _ & Hm & Hd & HD & HR).
  split_and!; try done.
  all: apply missing_values_nil in Hm as (Hh & Hp & Ha); try done.
  unfold configured_client. cbn [auth host username].
  destruct (authentication_of Getenv (provider.Config_Get req).2); [right|by left].
  destruct Ha as [Hu Hpw]; [done|]. by eexists.
Qed.

(** Where the values of the stored client come from: a known value of the
    configuration is taken as it is, whatever the environment holds; the
    environment variable is read for a value the configuration leaves null.
    The host and the port are never unknown then; a user name that is unknown
    is taken as empty, which is only possible without authentication. *)
Theorem configuration_over_environment Getenv req resp c :
  let config := (provider.Config_Get req).2 in
  let out := provider.Configure Getenv req resp in
  attrdiag.HasError (provider.Diagnostics out) = false →
  provider.ResourceData out = any_client c →
  (host c = match provider.Host config with
            | basetypes.NewStringValue s => s
            | _ => Getenv "SMTP_HOST"
            end)
  ∧ (port c = match provider.Port config with
              | basetypes.NewStringValue s => s
              | _ => Getenv "SMTP_PORT"
              end)
  ∧ (username c = match provider.Username config with
                  | basetypes.NewStringValue s => s
                  | basetypes.NewStringNull => Getenv "SMTP_USERNAME"
                  | basetypes.NewStringUnknown => ""
                  end)
  ∧ provider.Host config ≠ basetypes.NewStringUnknown
  ∧ provider.Port config ≠ basetypes.NewStringUnknown
  ∧ (provider.Username config = basetypes.NewStringUnknown → auth c = None).
Proof.
  intros config out Hok HR. subst out config.
  destruct (Configure_success Getenv req resp Hok) as (_ & Hu & Hm & _ & _ & HR').
  rewrite HR' in HR. injection HR as <-.
  apply missing_values_nil in Hm as (_ & _ & Ha).
  unfold unknown_values, credentials_checked in Hu.
  unfold configured_client, authentication_of, effective in *. cbn [auth host username port].
  destruct (provider.Config_Get req).2 as [H P A U Pw]. cbn in Hu, Ha |- *.
  destruct H, P; try done; (split_and!; try done; [by destruct U|]);
    intros ->; cbn in Ha;
    destruct A as [| |[]]; try done; try (by destruct Ha as [[] _]);
    destruct (ParseBool _) as [[] []]; try done; by destruct Ha as [[] _].
Qed.

(** The stored client has no credentials only on request: when the
    configuration sets authentication to false, or leaves it null while
    SMTP_AUTHENTICATION is one of 0, f, F, FALSE, false, False. Any other
    content of the variable, and an unknown setting, keep authentication
    on. *)
Theorem authentication_off_only_on_request Getenv req resp c :
  let config := (provider.Config_Get req).2 in
  let out := provider.Configure Getenv req resp in
  attrdiag.HasError (provider.Diagnostics out) = false →
  provider.ResourceData out = any_client c →
  auth c = None
  ↔ provider.Authentication config = basetypes.NewBoolValue false
    ∨ (provider.Authentication config = basetypes.NewBoolNull
       ∧ Getenv "SMTP_AUTHENTICATION" ∈ ["0"; "f"; "F"; "FALSE"; "false"; "False"]).
Proof.
  intros config out Hok HR. subst out config.
  destruct (Configure_success Getenv req resp Hok) as (_ & _ & _ & _ & _ & HR').
  rewrite HR' in HR. injection HR as <-.
  unfold configured_client, authentication_of, ParseBool. cbn [auth].
  destruct (provider.Authentication _) as [| |[]];
    [|by split; [|intros [?|[? _]]]..|by split; [left|]].
  destruct (bool_decide (_ ∈ ["1"; "t"; "T"; "TRUE"; "true"; "True"])) eqn:E1.
  - apply bool_decide_eq_true in E1. split; [done|]. intros [?|[_ E0]]; [done|]. exfalso.
    set_unfold. destruct E0 as [E0|[E0|[E0|[E0|[E0|[E0|[]]]]]]]; rewrite E0 in E1; naive_solver.
  - destruct (bool_decide (_ ∈ ["0"; "f"; "F"; "FALSE"; "false"; "False"])) eqn:E0.
    + apply bool_decide_eq_true in E0. split; [by right|done].
    + apply bool_decide_eq_false in E0. split; [done|]. by intros [?|[_ ?]].
Qed.

(** After a decoding without error Configure adds only errors, one for each
    problem, in the order host, port, username, password: for the unknown
    values when there is one (the user name and the password only when the
    authentication setting is true or unknown), and otherwise for the values
    that are missing or empty (the user name and the password only when the
    client authenticates). It does not stop at the first problem, and it
    reports no missing value when a value is unknown. *)
Theorem Configure_reports_by_attribute Getenv req resp :
  let config := (provider.Config_Get req).2 in
  let base := attrdiag.Append (provider.Diagnostics resp) (provider.Config_Get req).1 in
  let out := provider.Configure Getenv req resp in
  attrdiag.HasError base = false →
  ∃ added,
    provider.Diagnostics out = base ++ added
    ∧ Forall (λ d, is_error d = true) added
    ∧ labels added = match unknown_values config with
                     | [] => missing_values Getenv config
                     | _ => unknown_values config
                     end.
Proof.
  intros config base out Hb.
  destruct (Configure_outcome Getenv req resp Hb) as (added & Hd & Hall & Hl & _).
  by exists added.
Qed.


(** *** The provider without the authentication attribute *)

Lemma basic_Configure_decoding_error Getenv req resp :
  attrdiag.HasError
    (attrdiag.Append (provider.Diagnostics resp) (provider_basic.Config_Get req).1) = true →
  provider_basic.Configure Getenv req resp
  = provider.Diagnostics_Append resp (provider_basic.Config_Get req).1.
Proof.
  intros Hb. unfold provider_basic.Configure.
  destruct (provider_basic.Config_Get req) as [diags config].
  cbn [fst provider.Diagnostics_Append provider.Diagnostics] in *. by rewrite Hb.
Qed.

(** The same for the provider without the authentication attribute. *)
Lemma basic_Configure_outcome Getenv req resp :
  let config := (provider_basic.Config_Get req).2 in
  let base := attrdiag.Append (provider.Diagnostics resp) (provider_basic.Config_Get req).1 in
  let out := provider_basic.Configure Getenv req resp in
  attrdiag.HasError base = false →
  ∃ added,
    provider.Diagnostics out = base ++ added
    ∧ Forall (λ d, is_error d = true) added
    ∧ labels added = match basic_unknown_values config with
                     | [] => basic_missing_values Getenv config
                     | _ => basic_unknown_values config
                     end
    ∧ match basic_unknown_values config, basic_missing_values Getenv config with
      | [], [] =>
          provider.DataSourceData out = any_client (basic_configured_client Getenv config)
          ∧ provider.ResourceData out = any_client (basic_configured_client Getenv config)
      | _, _ => provider.DataSourceData out = provider.DataSourceData resp
                ∧ provider.ResourceData out = provider.ResourceData resp
      end.
Proof.
  intros config base out Hb.
  assert (Hout : out = provider_basic.Configure Getenv req resp) by done. clearbody out.
  subst config base. cbv delta [provider_basic.Configure] in Hout. cbv beta in Hout.
  destruct (provider_basic.Config_Get req) as [diags config]. cbn [fst snd] in Hb |- *.
  set (base := attrdiag.Append _ _) in Hb |- *.
  inline_let Hout. cbv iota in Hout.
  (* the checks for unknown values *)
  name_let Hout r0.
  change (provider.Diagnostics r0) with base in Hout. rewrite Hb in Hout. cbv iota in Hout.
  name_let Hout r1. name_let Hout r2. name_let Hout r3. name_let Hout r4.
  eassert (E4 : r4 = _).
  { refine (four_checks base _ _ _ _ _ _ _ _ _ _ _ _ _ _ _ _ _ _ Hb _). exact paths_NoDup. }
  clearbody r4. clear r0 r1 r2 r3.
  eassert (attrdiag.HasError (provider.Diagnostics r4) = _) as Herr.
  { rewrite E4. cbn [provider.Diagnostics].
    rewrite attr_HasError_app, Hb, HasError_when4 by done. cbn [orb]. reflexivity. }
  unfold basic_unknown_values.
  destruct (StringValue_IsUnknown (provider_basic.Host config)),
    (StringValue_IsUnknown (provider_basic.Port config)),
    (StringValue_IsUnknown (provider_basic.Username config)),
    (StringValue_IsUnknown (provider_basic.Password config));
    cbn [orb] in Herr; rewrite Herr in Hout; clear Herr; cbv iota in Hout;
    cbn [when app] in E4 |- *.
  1-15: subst out r4; eexists; split_and!; [reflexivity|by repeat constructor|reflexivity..].
  rewrite app_nil_r in E4. subst r4.
  (* the settings *)
  do 8 inline_let Hout.
  fold (effective (provider_basic.Host config) (Getenv "SMTP_HOST")) in Hout.
  fold (effective (provider_basic.Port config) (Getenv "SMTP_PORT")) in Hout.
  fold (effective (provider_basic.Username config) (Getenv "SMTP_USERNAME")) in Hout.
  fold (effective (provider_basic.Password config) (Getenv "SMTP_PASSWORD")) in Hout.
  (* the checks for missing values *)
  name_let Hout r5. name_let Hout r6. name_let Hout r7. name_let Hout r8.
  eassert (E8 : r8 = _).
  { refine (four_checks base _ _ _ _ _ _ _ _ _ _ _ _ _ _ _ _ _ _ Hb _). exact paths_NoDup. }
  clearbody r8. clear r5 r6 r7.
  eassert (attrdiag.HasError (provider.Diagnostics r8) = _) as Herr.
  { rewrite E8. cbn [provider.Diagnostics].
    rewrite attr_HasError_app, Hb, HasError_when4 by done. cbn [orb]. reflexivity. }
  unfold basic_missing_values.
  destruct (bool_decide (effective (provider_basic.Host config) (Getenv "SMTP_HOST") = "")),
    (bool_decide (effective (provider_basic.Port config) (Getenv "SMTP_PORT") = "")),
    (bool_decide (effective (provider_basic.Username config) (Getenv "SMTP_USERNAME") = "")),
    (bool_decide (effective (provider_basic.Password config) (Getenv "SMTP_PASSWORD") = ""));
    cbn [orb] in Herr; rewrite Herr in Hout; clear Herr; cbv iota in Hout;
    cbn [when app] in E8 |- *.
  1-15: subst out r8; eexists; split_and!; [reflexivity|by repeat constructor|reflexivity..].
  rewrite app_nil_r in E8. subst r8. do 2 inline_let Hout. subst out.
  exists []. rewrite app_nil_r. by split_and!.
Qed.

Lemma basic_missing_values_nil Getenv config :
  basic_missing_values Getenv config = [] →
  effective (provider_basic.Host config) (Getenv "SMTP_HOST") ≠ ""
  ∧ effective (provider_basic.Port config) (Getenv "SMTP_PORT") ≠ ""
  ∧ effective (provider_basic.Username config) (Getenv "SMTP_USERNAME") ≠ ""
  ∧ effective (provider_basic.Password config) (Getenv "SMTP_PASSWORD") ≠ "".
Proof. unfold basic_missing_values. by repeat case_bool_decide. Qed.

(** The provider without the authentication attribute always stores a client
    with credentials: when its Configure leaves no error, the stored client
    has a host, a port and a user name that are not empty, and plain
    credentials with that user name, a password that is not empty and the
    host. *)
Theorem basic_Configure_stores_credentials Getenv req resp :
  let config := (provider_basic.Config_Get req).2 in
  let out := provider_basic.Configure Getenv req resp in
  let c := basic_configured_client Getenv config in
  attrdiag.HasError (provider.Diagnostics out) = false →
  provider.DataSourceData out = any_client c ∧ provider.ResourceData out = any_client c
  ∧ provider.Diagnostics out
    = attrdiag.Append (provider.Diagnostics resp) (provider_basic.Config_Get req).1
  ∧ host c ≠ "" ∧ port c ≠ "" ∧ username c ≠ ""
  ∧ ∃ password, auth c = Some (smtp.PlainAuth "" (username c) password (host c))
                ∧ password ≠ "".
Proof.
  intros config out c Hok. subst out c config.
  destruct (attrdiag.HasError
              (attrdiag.Append (provider.Diagnostics resp)
                 (provider_basic.Config_Get req).1)) eqn:Hb.
  { rewrite basic_Configure_decoding_error in Hok by done.
    cbn [provider.Diagnostics_Append provider.Diagnostics] in Hok. congruence. }
  destruct (basic_Configure_outcome Getenv req resp Hb) as (added & Hd & Hall & Hl & Hdata).
  rewrite Hd, attr_HasError_app, Hb, (errors_HasError _ Hall) in Hok. cbn [orb] in Hok.
  destruct added; [|done]. rewrite app_nil_r in Hd. cbn [labels fmap list_fmap] in Hl.
  destruct (basic_unknown_values _); [|done]. rewrite <- Hl in Hdata. destruct Hdata as [HD HR].
  symmetry in Hl. apply basic_missing_values_nil in Hl as (? & ? & ? & ?).
  split_and!; try done. by eexists.
Qed.

Lemma values_agree Getenv h p a u pw :
  a = basetypes.NewBoolValue true ∨ a = basetypes.NewBoolUnknown →
  let config := {| provider.Host := h; provider.Port := p; provider.Authentication := a;
                   provider.Username := u; provider.Password := pw |} in
  let config' := {| provider_basic.Host := h; provider_basic.Port := p;
                    provider_basic.Username := u; provider_basic.Password := pw |} in
  (unknown_values config).*1 = (basic_unknown_values config').*1
  ∧ (missing_values Getenv config).*1 = (basic_missing_values Getenv config').*1
  ∧ configured_client Getenv config = basic_configured_client Getenv config'.
Proof.
  intros Ha config config'. subst config config'.
  unfold unknown_values, missing_values, basic_unknown_values, basic_missing_values,
    configured_client, basic_configured_client, credentials_checked, authentication_of.
  cbn [provider.Host provider.Port provider.Authentication provider.Username provider.Password
       provider_basic.Host provider_basic.Port provider_basic.Username
       provider_basic.Password].
  split_and!.
  - destruct Ha as [-> | ->]; cbn [andb];
      by destruct (StringValue_IsUnknown h), (StringValue_IsUnknown p),
        (StringValue_IsUnknown u), (StringValue_IsUnknown pw).
  - destruct Ha as [-> | ->]; cbn [andb]; by repeat case_bool_decide.
  - by destruct Ha as [-> | ->].
Qed.

(** With authentication true or unknown, the provider with the
    authentication attribute does what the provider without it does on the
    same settings: the same data are stored, diagnostics are added for the
    same attributes in the same order, and one fails exactly when the other
    does. *)
Theorem providers_agree_with_authentication_on Getenv diags h p a u pw resp :
  a = basetypes.NewBoolValue true ∨ a = basetypes.NewBoolUnknown →
  let out := provider.Configure Getenv
               {| provider.Config_Get :=
                    (diags, {| provider.Host := h; provider.Port := p;
                               provider.Authentication := a;
                               provider.Username := u; provider.Password := pw |}) |} resp in
  let out' := provider_basic.Configure Getenv
                {| provider_basic.Config_Get :=
                     (diags, {| provider_basic.Host := h; provider_basic.Port := p;
                                provider_basic.Username := u;
                                provider_basic.Password := pw |}) |} resp in
  provider.DataSourceData out = provider.DataSourceData out'
  ∧ provider.ResourceData out = provider.ResourceData out'
  ∧ (labels (provider.Diagnostics out)).*1 = (labels (provider.Diagnostics out')).*1
  ∧ attrdiag.HasError (provider.Diagnostics out)
    = attrdiag.HasError (provider.Diagnostics out').
Proof.
  intros Ha out out'. subst out out'.
  set (req := provider.Build_ConfigureRequest _).
  set (req' := provider_basic.Build_ConfigureRequest _).
  destruct (attrdiag.HasError (attrdiag.Append (provider.Diagnostics resp) diags)) eqn:Hb.
  { by rewrite Configure_decoding_error, basic_Configure_decoding_error. }
  destruct (Configure_outcome Getenv req resp Hb) as (added & Hd & Hall & Hl & Hdata).
  destruct (basic_Configure_outcome Getenv req' resp Hb) as (added' & Hd' & Hall' & Hl' & Hdata').
  destruct (values_agree Getenv h p a u pw Ha) as (HU & HM & Hc).
  cbn [req req' provider.Config_Get provider_basic.Config_Get fst snd] in *.
  rewrite Hd, Hd', !attr_HasError_app, Hb, (errors_HasError _ Hall), (errors_HasError _ Hall').
  cbn [orb].
  assert ((labels added).*1 = (labels added').*1 ∧
          provider.DataSourceData (provider.Configure Getenv req resp)
          = provider.DataSourceData (provider_basic.Configure Getenv req' resp)
          ∧ provider.ResourceData (provider.Configure Getenv req resp)
            = provider.ResourceData (provider_basic.Configure Getenv req' resp)) as (E & ? & ?).
  { rewrite Hl, Hl'.
    destruct (unknown_values _) as [|x U], (basic_unknown_values _) as [|x' U']; try done.
    - destruct (missing_values _ _) as [|y M], (basic_missing_values _ _) as [|y' M'];
        try done; (split; [congruence|]); destruct Hdata, Hdata'; split; congruence.
    - split; [congruence|]. destruct Hdata, Hdata'; split; congruence. }
  split_and!; try done.
  - unfold labels in *. by rewrite !fmap_app, E.
  - destruct added, added'; done.
Qed.

(** ** The resource the provider configures *)

Section configured.

Set Default Proof Using "Type".

Context {Value : Type} `{Countable Value}.
Variable Value_String : Value → string.

(** Membership in the script of Create, split into its steps. *)
Ltac in_script Hin :=
  unfold script, prelude, session_prelude, connect, secure, mail_from, data, rcpt in Hin;
  cbn [client_of auth host port username] in Hin;
  repeat match type of Hin with
         | context [match ?a with Some _ => _ | None => _ end] => destruct a eqn:?
         end;
  repeat first
    [ apply elem_of_app in Hin as [Hin|Hin]
    | apply elem_of_cons in Hin as [Hin|Hin]
    | apply elem_of_nil in Hin
    | apply list_elem_of_fmap in Hin as (? & Hin & ?) ];
  simplify_eq; try done.

(** Create on a resource whose client is set never panics, whatever the
    client, the plan and the server: it never calls Auth on nil. *)
Theorem Create_never_panics (r : sendMailResource) (p : @Plan Value) srv ds st :
  let out := handle Value_String OpCreate r p srv (start ds st) in
  out.2 ≠ Panic ∧ ∀ c, (c, smtp.Panicked) ∉ calls out.1.
Proof.
  intros out. subst out.
  pose proof (handle_sent Value_String OpCreate r p srv ds st) as Hs.
  destruct (diag.HasError _).
  { rewrite Hs. split; [done|]. intros c Hin. by apply elem_of_nil in Hin. }
  destruct Hs as [Hc _ _ ->|n c' s e Hn Hc _ _ ->|n s Hn _ _ _ _].
  - split; [done|]. intros c. rewrite Hc. cbn [start calls app].
    intros (? & ? & _)%list_elem_of_fmap. done.
  - split; [done|]. intros c. rewrite Hc. cbn [start calls app].
    rewrite elem_of_app, list_elem_of_singleton.
    intros [(? & ? & _)%list_elem_of_fmap|?]; done.
  - apply list_elem_of_lookup_2 in Hn. in_script Hn.
Qed.

(** From the provider to the server. After a Configure without error the
    resource's Configure takes the stored client, and Create with it dials
    host:port as settled from the configuration and the environment, upgrades
    to TLS and authenticates only when authentication is on, then with the
    settled user name and password, and uses the settled user name as the
    sender of a plan without from. With authentication on, Update does what
    Create does. *)
Theorem Create_after_Configure Getenv req resp r_client (p : @Plan Value) srv ds st :
  let config := (provider.Config_Get req).2 in
  let out := provider.Configure Getenv req resp in
  let host := effective (provider.Host config) (Getenv "SMTP_HOST") in
  let port := effective (provider.Port config) (Getenv "SMTP_PORT") in
  let username := effective (provider.Username config) (Getenv "SMTP_USERNAME") in
  let password := effective (provider.Password config) (Getenv "SMTP_PASSWORD") in
  attrdiag.HasError (provider.Diagnostics out) = false →
  ∃ c, resource_Configure r_client (provider.ResourceData out) = (Some c, Next ())
    ∧ (∀ call rep,
         (call, rep) ∈ calls (handle Value_String OpCreate {| client_of := c |} p srv
                                (start ds st)).1 →
         match call with
         | smtp.Dial addr => addr = host +:+ ":" +:+ port
         | smtp.StartTLS _ => authentication_of Getenv config = true
         | smtp.CallAuth a =>
             authentication_of Getenv config = true
             ∧ a = Some (smtp.PlainAuth "" username password host)
             ∧ username ≠ "" ∧ password ≠ ""
         | smtp.Mail from =>
             basetypes.ValueString (From (Get p).2) = "" → from = username
         | _ => True
         end)
    ∧ (authentication_of Getenv config = true →
       ∀ w, handle Value_String OpUpdate {| client_of := c |} p srv w
            = handle Value_String OpCreate {| client_of := c |} p srv w).
Proof.
  intros config out host port username password Hok.
  subst config out host port username password.
  destruct (Configure_success Getenv req resp Hok) as (_ & _ & Hm & _ & _ & ->).
  apply missing_values_nil in Hm as (_ & _ & Ha).
  eexists. split; [reflexivity|]. split.
  - intros call rep Hin. apply handle_calls_script in Hin as [s Hin].
    unfold configured_client in Hin.
    destruct (authentication_of Getenv (provider.Config_Get req).2) eqn:Hauth;
      destruct call; try done; in_script Hin.
    + by destruct Ha.
    + unfold sender. cbn [client_of username]. intros ->. by rewrite decide_True.
    + unfold sender. cbn [client_of username]. intros ->. by rewrite decide_True.
  - intros Hauth w. rewrite !handle_send. unfold script, prelude, session_prelude.
    unfold configured_client. cbn [client_of auth]. by rewrite Hauth.
Qed.

End configured.

(** ** The handlers on the example requests *)

(** Membership in a list of recorded calls, by computation. *)
Ltac recorded :=
  match goal with |- ?P => apply (@bool_decide_unpack P _) end; vm_compute; exact I.

(** The normalizer on the example of the specification, and on two
    addresses that differ in case only. *)
Example uniqueAttrValue_example :
  uniqueAttrValue (known <$> ["a@x"; "b@x"; "b@x"; "c@x"]) = known <$> ["a@x"; "b@x"; "c@x"]
  ∧ uniqueAttrValue (known <$> ["A@x"; "a@x"; "A@x"]) = known <$> ["A@x"; "a@x"].
Proof. split; vm_compute; reflexivity. Qed.

Lemma uniqueAttrValue_first_occurrences_witness :
  NoDup (uniqueAttrValue (known <$> ["a@x"; "b@x"; "b@x"; "c@x"])).
Proof.
  exact (proj1 (uniqueAttrValue_first_occurrences
                  (known <$> ["a@x"; "b@x"]) (known <$> ["b@x"; "c@x"]) [])).
Defined.

(** C1, on the request of the specification's example (to a@x, no cc, subject
    Hi, body Hello, plain text). The Message Builder on the address strings
    gives the bytes the specification states; Create writes other bytes: it
    takes the [String] of each address value, which the framework prints
    with %q, so the To line holds the address between double quotes. *)
Theorem Create_writes_quoted_addresses :
  raw ["a@x"] [] "Hi" "Hello" false
  = "To: a@x" +:+ CRLF +:+ "Cc: " +:+ CRLF +:+ "Subject: Hi" +:+ CRLF +:+ CRLF
      +:+ "Hello" +:+ CRLF
  ∧ (∀ wide, basetypes.StringValue_String wide (known "a@x") = quoted "a@x")
  ∧ written (calls (handle String_ OpCreate without_credentials hello accepting
                      (start [] None)).1)
  = [ "To: " +:+ quoted "a@x" +:+ CRLF +:+ "Cc: " +:+ CRLF +:+ "Subject: Hi" +:+ CRLF
        +:+ CRLF +:+ "Hello" +:+ CRLF ]
  ∧ written (calls (handle String_ OpCreate without_credentials hello accepting
                      (start [] None)).1)
  ≠ [ raw ["a@x"] [] "Hi" "Hello" false ].
Proof. split_and!; [vm_compute; reflexivity|done|vm_compute; reflexivity|by vm_compute]. Qed.

(** C3, on a provider without credentials. Create makes no call of StartTLS
    or Auth, whatever the server answers; Update on an accepting server calls
    StartTLS, then Auth on nil, and panics. *)
Theorem Update_without_credentials_calls_StartTLS :
  (∀ p srv ds st,
     Forall (λ ev : smtp.Event, is_secure ev.1 = false)
       (calls (handle String_ OpCreate without_credentials p srv (start ds st)).1))
  ∧ handle String_ OpUpdate without_credentials hello accepting (start [] None)
    = ({| calls :=
            [ (smtp.Dial "smtp.example.com:25", smtp.Done);
              (smtp.StartTLS {| smtp.ServerName := "smtp.example.com:25";
                                smtp.InsecureSkipVerify := true |}, smtp.Done);
              (smtp.CallAuth None, smtp.Panicked) ];
          Diagnostics := []; State := None |}, Panic).
Proof.
  split; [|vm_compute; reflexivity].
  intros p srv ds st. apply Create_makes_no_secure_call.
Qed.

(** C7, on a provider without credentials and an accepting server. Create
    sends the message and sets the state; Update on the same plan writes
    no message, panics and leaves the state unset. Read and Delete make no
    call and leave the response as it is. *)
Theorem Update_without_credentials_is_not_Create :
  (handle String_ OpCreate without_credentials hello accepting (start [] None)).2 = Next ()
  ∧ written (calls (handle String_ OpCreate without_credentials hello accepting
                      (start [] None)).1)
    = [ message String_ (Get hello).2 ]
  ∧ (handle String_ OpUpdate without_credentials hello accepting (start [] None)).2 = Panic
  ∧ written (calls (handle String_ OpUpdate without_credentials hello accepting
                      (start [] None)).1) = []
  ∧ State (handle String_ OpUpdate without_credentials hello accepting (start [] None)).1
    = None
  ∧ (∀ r rreq dreq srv (w : @World basetypes.StringValue),
       Read r rreq srv w = (w, Next ()) ∧ Delete r dreq srv w = (w, Next ())).
Proof. split_and!; [vm_compute; reflexivity..|done]. Qed.

Lemma identifier_of_message_witness :
  ID <$> State (handle String_ OpCreate without_credentials hello accepting
                  (start [] None)).1
  = Some (basetypes.NewStringValue "1d14662d559e8469508ff1cc3ed2c512").
Proof.
  assert ((handle String_ OpCreate without_credentials hello accepting
             (start [] None)).2 = Next ()) as Hend by (vm_compute; reflexivity).
  destruct (identifier_of_message String_ OpCreate without_credentials hello accepting
              [] None Hend) as (_ & Hid & _).
  rewrite Hid. vm_compute. reflexivity.
Defined.

(** C5 as stated fails on a plan whose bcc holds an address that to holds
    too: a@x is a bcc address, and Create writes it in the To line. *)
Lemma bcc_address_in_To_line :
  known "a@x" ∈ basetypes.Elements (Bcc (Get blind).2)
  ∧ (smtp.Write ("To: " +:+ String_ (known "a@x") +:+ CRLF +:+ "Cc: " +:+ CRLF
                   +:+ "Subject: Hi" +:+ CRLF +:+ mime_html +:+ CRLF +:+ "Hello" +:+ CRLF),
     smtp.Done)
    ∈ calls (handle String_ OpCreate without_credentials blind accepting (start [] None)).1
  ∧ occurs (basetypes.ValueString (known "a@x")) ("To: " +:+ String_ (known "a@x") +:+ CRLF).
Proof.
  split_and!; [recorded..|].
  exists ("To: " +:+ String DQUOTE ""), (String DQUOTE CRLF). vm_compute. reflexivity.
Qed.

Lemma bcc_in_envelope_only_witness :
  (smtp.Rcpt (String_ (known "d@x")), smtp.Done)
  ∈ calls (handle String_ OpCreate without_credentials blind accepting (start [] None)).1.
Proof.
  assert ((handle String_ OpCreate without_credentials blind accepting
             (start [] None)).2 = Next ()) as Hend by (vm_compute; reflexivity).
  assert (known "d@x" ∈ basetypes.Elements (Bcc (Get blind).2)) as Hd by recorded.
  exact (proj2 (proj2 (bcc_in_envelope_only String_ OpCreate without_credentials []
                         (Get blind).2 basetypes.NewListNull accepting accepting
                         [] [] None None)) Hend _ Hd).
Defined.

Lemma first_failed_recipient_ends_send_witness :
  rcpt_events (calls (handle String_ OpUpdate with_credentials three
                        (rejecting (smtp.Rcpt (quoted "b@x")) "550 no such user")
                        (start [] None)).1)
  = [ (quoted "a@x", smtp.Done); (quoted "b@x", smtp.Failed "550 no such user") ]
  ∧ Forall (λ ev : smtp.Event, is_data ev.1 = false)
      (calls (handle String_ OpUpdate with_credentials three
                (rejecting (smtp.Rcpt (quoted "b@x")) "550 no such user")
                (start [] None)).1).
Proof.
  assert (rcpt_events (calls (handle String_ OpUpdate with_credentials three
                                (rejecting (smtp.Rcpt (quoted "b@x")) "550 no such user")
                                (start [] None)).1) !! 1%nat
          = Some (quoted "b@x", smtp.Failed "550 no such user")) as Hk
    by (vm_compute; reflexivity).
  destruct (first_failed_recipient_ends_send String_ OpUpdate with_credentials three _
              [] None 1 _ _ Hk) as (_ & Hev & Hdata & _).
  split; [|exact Hdata].
  rewrite Hev. vm_compute. reflexivity.
Defined.

Lemma render_html_changes_mime_block_only_witness :
  message String_ (set_RenderHtml (Get hello).2 (basetypes.NewBoolValue true))
  = headerBlock [quoted "a@x"] [] "Hi" +:+ mimeBlock true +:+ CRLF +:+ "Hello" +:+ CRLF.
Proof.
  assert ((smtp.Write (message String_ (Get hello).2), smtp.Done)
          ∈ calls (handle String_ OpCreate without_credentials
                     {| Get := ([], (Get hello).2) |} accepting (start [] None)).1)
    as Hm by recorded.
  assert ((smtp.Write (message String_
                         (set_RenderHtml (Get hello).2 (basetypes.NewBoolValue true))),
           smtp.Done)
          ∈ calls (handle String_ OpCreate without_credentials
                     {| Get := ([], set_RenderHtml (Get hello).2
                                      (basetypes.NewBoolValue true)) |}
                     accepting (start [] None)).1)
    as Hm' by recorded.
  destruct (render_html_changes_mime_block_only String_ _ _ _ _ _ _ _ _ _ _ _ _ _ _ _
              Hm Hm') as (_ & -> & _).
  vm_compute. reflexivity.
Defined.

Lemma mail_from_effective_sender_witness :
  "test" = username (client_of without_credentials).
Proof.
  assert ((smtp.Mail "test", smtp.Done)
          ∈ calls (handle String_ OpCreate without_credentials hello accepting
                     (start [] None)).1) as Hm by recorded.
  exact (mail_from_effective_sender String_ _ _ _ _ _ _ _ _ Hm).
Defined.

Lemma failure_leaves_state_witness :
  State (handle String_ OpCreate without_credentials hello
           (rejecting (smtp.Mail "test") "553 sender rejected") (start [] None)).1 = None
  ∧ (handle String_ OpCreate without_credentials hello
       (rejecting (smtp.Mail "test") "553 sender rejected") (start [] None)).2 = Return.
Proof.
  assert ((smtp.Mail "test", smtp.Failed "553 sender rejected")
          ∈ calls (handle String_ OpCreate without_credentials hello
                     (rejecting (smtp.Mail "test") "553 sender rejected")
                     (start [] None)).1) as Hf by recorded.
  destruct (proj1 (failure_leaves_state String_ OpCreate without_credentials hello
                     (rejecting (smtp.Mail "test") "553 sender rejected") [] None)
              _ _ Hf) as (Hret & Hst & _).
  split; [exact Hst|exact Hret].
Defined.

Lemma Create_on_accepting_server_witness :
  (handle String_ OpCreate with_credentials three accepting (start [] None)).2 = Next ()
  ∧ rcpt_events (calls (handle String_ OpCreate with_credentials three accepting
                          (start [] None)).1)
    = [ (quoted "a@x", smtp.Done); (quoted "b@x", smtp.Done); (quoted "c@x", smtp.Done) ].
Proof.
  assert (diag.HasError (diag.Append [] (Get three).1) = false) as Hne by reflexivity.
  rewrite (Create_on_accepting_server String_ with_credentials three [] None Hne).
  split; vm_compute; reflexivity.
Defined.

(** The digest on the test suite of RFC 1321 and on a message of three
    blocks, and Quote on quotes, a backslash and control characters. *)
(** *** The further properties on the examples *)

Lemma calls_follow_script_witness :
  ∃ s, script String_ OpCreate with_credentials (Get hello).2 !! 2%nat
       = Some (smtp.CallAuth (auth (client_of with_credentials)), s).
Proof.
  assert (calls (handle String_ OpCreate with_credentials hello accepting (start [] None)).1
            !! 2%nat
          = Some (smtp.CallAuth (auth (client_of with_credentials)), smtp.Done)) as Hi
    by (vm_compute; reflexivity).
  exact (proj1 (calls_follow_script String_ _ _ _ _ _ _ _ _ _ Hi)).
Defined.

Lemma auth_only_after_tls_witness :
  calls (handle String_ OpUpdate with_credentials hello
           (rejecting (smtp.CallAuth (auth (client_of with_credentials))) "535 denied")
           (start [] None)).1 !! 1%nat
  = Some (smtp.StartTLS {| smtp.ServerName := "smtp.example.com:587";
                           smtp.InsecureSkipVerify := true |}, smtp.Done).
Proof.
  assert ((smtp.CallAuth (auth (client_of with_credentials)), smtp.Failed "535 denied")
          ∈ calls (handle String_ OpUpdate with_credentials hello
                     (rejecting (smtp.CallAuth (auth (client_of with_credentials)))
                        "535 denied")
                     (start [] None)).1) as Hin by recorded.
  exact (proj1 (proj2 (auth_only_after_tls String_ _ _ _ _ _ _ _ _ Hin))).
Defined.

Lemma data_only_after_all_recipients_witness :
  rcpt_events (calls (handle String_ OpCreate with_credentials three accepting
                        (start [] None)).1)
  = [ (quoted "a@x", smtp.Done); (quoted "b@x", smtp.Done); (quoted "c@x", smtp.Done) ].
Proof.
  assert ((smtp.Data, smtp.Done)
          ∈ calls (handle String_ OpCreate with_credentials three accepting
                     (start [] None)).1) as Hin by recorded.
  rewrite (proj1 (data_only_after_all_recipients String_ _ _ _ _ _ _ _ _ Hin eq_refl)).
  vm_compute. reflexivity.
Defined.

Lemma dial_and_tls_configuration_witness :
  "smtp.example.com:25"
  = host (client_of without_credentials) +:+ ":" +:+ port (client_of without_credentials).
Proof.
  assert ((smtp.Dial "smtp.example.com:25", smtp.Done)
          ∈ calls (handle String_ OpCreate without_credentials hello accepting
                     (start [] None)).1) as Hin by recorded.
  exact (dial_and_tls_configuration String_ _ _ _ _ _ _ _ _ Hin).
Defined.

Lemma no_recipient_still_sends_witness :
  rcpt_events (calls (handle String_ OpCreate without_credentials nobody accepting
                        (start [] None)).1) = []
  ∧ (handle String_ OpCreate without_credentials nobody accepting (start [] None)).2
    = Next ().
Proof.
  destruct (no_recipient_still_sends String_ OpCreate without_credentials nobody accepting
              [] None eq_refl eq_refl eq_refl) as [Hr Hs].
  split; [exact Hr|]. by rewrite (Hs eq_refl).
Defined.

Lemma failed_call_summary_witness :
  Diagnostics (handle String_ OpCreate without_credentials hello
                 (rejecting (smtp.Mail "test") "553 sender rejected") (start [] None)).1
  = [diag.NewErrorDiagnostic "Error setting sender address:" "553 sender rejected"].
Proof.
  assert ((smtp.Mail "test", smtp.Failed "553 sender rejected")
          ∈ calls (handle String_ OpCreate without_credentials hello
                     (rejecting (smtp.Mail "test") "553 sender rejected")
                     (start [] None)).1) as Hf by recorded.
  exact (proj1 (failed_call_summary String_ _ _ _ _ _ _ _ _ Hf)).
Defined.

Lemma Configure_error_stores_nothing_witness :
  provider.ResourceData (provider.Configure no_environment config_empty fresh_response)
  = any_nil.
Proof.
  assert (attrdiag.HasError
            (provider.Diagnostics
               (provider.Configure no_environment config_empty fresh_response)) = true)
    as Herr by (vm_compute; reflexivity).
  exact (proj2 (proj2 (Configure_error_stores_nothing _ _ _ Herr))).
Defined.

Lemma Configure_stores_usable_client_witness :
  provider.ResourceData
    (provider.Configure no_environment config_with_credentials fresh_response)
  = any_client (client_of with_credentials).
Proof.
  assert (attrdiag.HasError
            (provider.Diagnostics
               (provider.Configure no_environment config_with_credentials fresh_response))
          = false) as Hok by (vm_compute; reflexivity).
  exact (proj1 (proj2 (Configure_stores_usable_client _ _ _ Hok))).
Defined.

Lemma configuration_over_environment_witness :
  host (client_of without_credentials) = "smtp.example.com"
  ∧ port (client_of without_credentials) = "25"
  ∧ username (client_of without_credentials) = username_environment "SMTP_USERNAME".
Proof.
  assert (attrdiag.HasError
            (provider.Diagnostics
               (provider.Configure username_environment config_without_authentication
                  fresh_response)) = false) as Hok by (vm_compute; reflexivity).
  assert (provider.ResourceData
            (provider.Configure username_environment config_without_authentication
               fresh_response) = any_client (client_of without_credentials)) as HR
    by (vm_compute; reflexivity).
  destruct (configuration_over_environment _ _ _ _ Hok HR) as (Hh & Hp & Hu & _).
  exact (conj Hh (conj Hp Hu)).
Defined.

Lemma authentication_off_only_on_request_witness :
  auth (client_of without_credentials) = None.
Proof.
  assert (attrdiag.HasError
            (provider.Diagnostics
               (provider.Configure username_environment config_without_authentication
                  fresh_response)) = false) as Hok by (vm_compute; reflexivity).
  assert (provider.ResourceData
            (provider.Configure username_environment config_without_authentication
               fresh_response) = any_client (client_of without_credentials)) as HR
    by (vm_compute; reflexivity).
  apply (authentication_off_only_on_request _ _ _ _ Hok HR). by left.
Defined.

Lemma Configure_reports_by_attribute_witness :
  ∃ added,
    provider.Diagnostics (provider.Configure no_environment config_unknown fresh_response)
    = added
    ∧ labels added
      = [ (Some "host", "Unknown SMTP Host"); (Some "port", "Unknown SMTP port");
          (Some "username", "Unknown SMTP Username");
          (Some "password", "Unknown SMTP Password") ].
Proof.
  destruct (Configure_reports_by_attribute no_environment config_unknown fresh_response
              eq_refl) as (added & Hd & _ & Hl).
  exists added. split; [exact Hd|exact Hl].
Defined.


Lemma basic_Configure_stores_credentials_witness :
  provider.ResourceData
    (provider_basic.Configure no_environment basic_config_with_credentials fresh_response)
  = any_client (client_of with_credentials).
Proof.
  assert (attrdiag.HasError
            (provider.Diagnostics
               (provider_basic.Configure no_environment basic_config_with_credentials
                  fresh_response)) = false) as Hok by (vm_compute; reflexivity).
  exact (proj1 (proj2 (basic_Configure_stores_credentials _ _ _ Hok))).
Defined.

Lemma providers_agree_with_authentication_on_witness :
  provider.ResourceData
    (provider.Configure no_environment
       {| provider.Config_Get :=
            ([], {| provider.Host := known "smtp.example.com"; provider.Port := known "587";
                    provider.Authentication := basetypes.NewBoolValue true;
                    provider.Username := known "test";
                    provider.Password := known "test123" |}) |} fresh_response)
  = provider.ResourceData
      (provider_basic.Configure no_environment basic_config_with_credentials fresh_response).
Proof.
  exact (proj1 (proj2 (providers_agree_with_authentication_on no_environment []
                         (known "smtp.example.com") (known "587")
                         (basetypes.NewBoolValue true) (known "test") (known "test123")
                         fresh_response (or_introl eq_refl)))).
Defined.

Lemma Create_after_Configure_witness :
  ∃ c,
    resource_Configure None
      (provider.ResourceData
         (provider.Configure no_environment config_with_credentials fresh_response))
    = (Some c, Next ())
    ∧ ∀ w, handle String_ OpUpdate {| client_of := c |} hello accepting w
           = handle String_ OpCreate {| client_of := c |} hello accepting w.
Proof.
  assert (attrdiag.HasError
            (provider.Diagnostics
               (provider.Configure no_environment config_with_credentials fresh_response))
          = false) as Hok by (vm_compute; reflexivity).
  destruct (Create_after_Configure String_ no_environment config_with_credentials
              fresh_response None hello accepting [] None Hok) as (c & Hc & _ & Hu).
  exists c. split; [exact Hc|]. apply Hu. vm_compute. reflexivity.
Defined.

Example md5_examples :
  fmt.Sprintf_x (md5.Sum "") = "d41d8cd98f00b204e9800998ecf8427e"
  ∧ fmt.Sprintf_x (md5.Sum "abc") = "900150983cd24fb0d6963f7d28e17f72"
  ∧ fmt.Sprintf_x (md5.Sum "message digest") = "f96b697d7cb7938d525a2f31aaf161d0"
  ∧ fmt.Sprintf_x (md5.Sum
      ("12345678901234567890123456789012345678901234567890123456789012345678901234567890"
       +:+ "12345678901234567890123456789012345678901234567890123456789012345678901234567890"))
    = "268c7919189d85e276d74b8c60b2f84f".
Proof. split_and!; vm_compute; reflexivity. Qed.

Example Quote_example :
  strconv.Quote ascii_only ("a" +:+ String DQUOTE "b" +:+ String BACKSLASH CRLF
                              +:+ String "127" "")
  = String DQUOTE ("a" +:+ String BACKSLASH (String DQUOTE "b") +:+ String BACKSLASH
                     (String BACKSLASH "") +:+ String BACKSLASH "r" +:+ String BACKSLASH "n"
                     +:+ String BACKSLASH "x7f" +:+ String DQUOTE "").
Proof. vm_compute. reflexivity. Qed.
